(** * poum: a units-of-measure registry and converter

    A shallow embedding of [poum/__init__.py] (classes [Unit], [Quantity]
    and [UnitManager]) together with the properties its specification
    states about it.

    Conventions of the embedding.
    - Numbers.  The coefficients and the converted values are annotated
      [Decimal] in the source; the loader and the tests pass [float]
      values; the operators are those of whatever number type the values
      have.  A number is modelled by its value, a canonical rational
      ([Qc]): every finite [Decimal], [float], [int] or [Fraction] is
      one, and [==] on numbers compares values.  The operators are those
      of an [Arithmetic]: the result of an operation is the exact result
      rounded as the number type rounds it, and a division by zero raises
      what the number type raises.  Infinities, NaNs, results beyond the
      exponent range of the number type, and operands of two different
      number types are not modelled.
    - Strings.  A Python [str] is modelled as a [string] of code points
      below 256; [lower] and [strip] follow Python on that range.
    - Exceptions.  A call that can raise returns a [result]; the
      constructors of [exn] are the Python exception classes that the
      modelled code can raise.
    - [None].  An argument or a result that may be [None] is an [option].
    - Objects.  [Quantity] defines neither [__eq__] nor [__hash__], so two
      quantities are compared by identity: a quantity carries its object
      identity [qid].  [Unit] overrides [__eq__] and [__hash__]; a unit is
      a plain record.
    - Sets.  [UnitManager.quantities_] is a Python [set]; its iteration
      order is fixed as long as the set is not modified, and the model
      keeps the quantities as the list in that order. *)

From Stdlib Require Import QArith Qcanon Ascii String SetoidList.
From stdpp Require Import gmap strings list fin_maps.

Set Default Proof Using "Type".

(** ** Exceptions *)

Inductive exn : Type :=
  | ValueError          (* the specification's InvalidArgument *)
  | ZeroDivisionError   (* the specification's DivisionByZero *)
  | AttributeError      (* an attribute read on [None] *)
  | InvalidOperation    (* [decimal.InvalidOperation], not a
                           [ZeroDivisionError] *)
  | UnicodeDecodeError. (* a subclass of [ValueError], not of [IOError] *)

(** [isinstance(e, ValueError)].  None of the classes above is an
    [IOError]. *)
Definition is_ValueError (e : exn) : bool :=
  match e with
  | ValueError | UnicodeDecodeError => true
  | _ => false
  end.

Inductive result (A : Type) : Type :=
  | Ok (a : A)
  | Raise (e : exn).
Arguments Ok {A} a.
Arguments Raise {A} e.

Global Instance result_ret : MRet result := λ A, Ok.
Global Instance result_bind : MBind result := λ A B k m,
  match m with
  | Ok a => k a
  | Raise e => Raise e
  end.

Global Instance exn_eq_dec : EqDecision exn.
Proof. solve_decision. Defined.

Global Instance result_eq_dec {A : Type} `{EqDecision A} :
  EqDecision (result A).
Proof. solve_decision. Defined.

Definition raises {A : Type} (m : result A) : Prop :=
  match m with
  | Ok _ => False
  | Raise _ => True
  end.

(** ** Python strings: [str.lower] and [str.strip] *)

Module Str.

Definition between (lo n hi : N) : bool := ((lo <=? n) && (n <=? hi))%N.

(** [c.isspace()] for a code point below 256. *)
Definition isspace (c : ascii) : bool :=
  let n := N_of_ascii c in
  between 9 n 13 || between 28 n 32 || (n =? 133)%N || (n =? 160)%N.

(** [c.isupper()] for a code point below 256: A-Z, and the Latin-1
    capitals 192-222 without the multiplication sign 215. *)
Definition isupper (c : ascii) : bool :=
  let n := N_of_ascii c in
  between 65 n 90 || (between 192 n 222 && negb (n =? 215)%N).

Definition lower_char (c : ascii) : ascii :=
  if isupper c then ascii_of_N (N_of_ascii c + 32) else c.

Fixpoint lower (s : string) : string :=
  match s with
  | EmptyString => EmptyString
  | String c s' => String (lower_char c) (lower s')
  end.

Fixpoint lstrip (s : string) : string :=
  match s with
  | EmptyString => EmptyString
  | String c s' => if isspace c then lstrip s' else s
  end.

Fixpoint rstrip (s : string) : string :=
  match s with
  | EmptyString => EmptyString
  | String c s' =>
      match rstrip s' with
      | EmptyString => if isspace c then EmptyString else String c EmptyString
      | r => String c r
      end
  end.

Definition strip (s : string) : string := rstrip (lstrip s).

(** A string is lower-cased when [lower] leaves it alone, trimmed when
    [strip] does. *)
Definition is_lower (s : string) : Prop := lower s = s.
Definition is_trimmed (s : string) : Prop := strip s = s.

End Str.

(** ** Numbers and their operators *)

(** The arithmetic of a number type.  [rnd] rounds the exact result of an
    operation to the number the operation returns; [zero_by_zero] is the
    exception that [0 / 0] raises. *)
Class Arithmetic : Type := mkArithmetic {
  rnd : Qc → Qc;
  zero_by_zero : exn
}.

(** [x * y], [x + y] and [x - y] *)
Definition py_mul `{Arithmetic} (x y : Qc) : Qc := rnd (x * y)%Qc.
Definition py_add `{Arithmetic} (x y : Qc) : Qc := rnd (x + y)%Qc.
Definition py_sub `{Arithmetic} (x y : Qc) : Qc := rnd (x - y)%Qc.

(** [x / y]: a zero divisor raises [ZeroDivisionError]
    ([decimal.DivisionByZero] is one), except that [0 / 0] raises what
    the number type raises for it. *)
Definition py_div `{Arithmetic} (x y : Qc) : result Qc :=
  if decide (y = 0%Qc) then
    Raise (if decide (x = 0%Qc) then zero_by_zero else ZeroDivisionError)
  else Ok (rnd (x / y)%Qc).

(** The number of digits of a positive integer in base [β]. *)
Fixpoint digits_fuel (fuel : nat) (β z : Z) : Z :=
  match fuel with
  | O => 0
  | S fuel' => if (z <=? 0)%Z then 0%Z else (1 + digits_fuel fuel' β (z / β))%Z
  end.

Definition digits (β z : Z) : Z :=
  digits_fuel (Z.to_nat (Z.log2 z + 1)) β z.

(** The integer nearest to [n / d], the even one of two nearest. *)
Definition round_half_even (n d : Z) : Z :=
  let q := (n / d)%Z in
  let r := (n mod d)%Z in
  match (2 * r ?= d)%Z with
  | Lt => q
  | Gt => (q + 1)%Z
  | Eq => if Z.even q then q else (q + 1)%Z
  end.

(** Rounding to [p] significant digits in base [β], to the nearest, the
    even one of two nearest; with [emin], the last digit kept is not
    below [β ^ emin] (the subnormal numbers of a binary format). *)
Definition round_sig (β p : Z) (emin : option Z) (x : Qc) : Qc :=
  let n := Qnum x in
  let d := Zpos (Qden x) in
  if (n =? 0)%Z then x else
  let m := Z.abs n in
  let L := (digits β m - digits β d)%Z in
  let lg := if (if (0 <=? L)%Z then (d * β ^ L <=? m)%Z
                else (d <=? m * β ^ (- L))%Z)
            then L else (L - 1)%Z in
  let e0 := (lg - (p - 1))%Z in
  let e := match emin with Some em => Z.max e0 em | None => e0 end in
  let k := if (0 <=? e)%Z then round_half_even m (d * β ^ e)
           else round_half_even (m * β ^ (- e)) d in
  let k := (Z.sgn n * k)%Z in
  if (0 <=? e)%Z then Q2Qc (Qmake (k * β ^ e) 1)
  else Q2Qc (Qmake k (Z.to_pos (β ^ (- e)))).

(** [fractions.Fraction]: exact results. *)
Definition fraction : Arithmetic :=
  mkArithmetic (λ x, x) ZeroDivisionError.

(** [decimal.Decimal] in the default context: 28 significant digits,
    [ROUND_HALF_EVEN]; [0 / 0] raises [decimal.InvalidOperation]. *)
Definition decimal : Arithmetic :=
  mkArithmetic (round_sig 10 28 None) InvalidOperation.

(** [float]: IEEE 754 binary64, 53 significant bits, round to nearest
    even, subnormal numbers down to [2 ^ -1074]. *)
Definition binary64 : Arithmetic :=
  mkArithmetic (round_sig 2 53 (Some (-1074)%Z)) ZeroDivisionError.

(** An arithmetic that does not round. *)
Definition is_exact (ar : Arithmetic) : Prop := ∀ x, @rnd ar x = x.


(** ** class Unit *)

Record Unit : Type := mkUnit {
  name_ : string;
  symbol_ : string;
  a_ : Qc;
  b_ : Qc;
  c_ : Qc;
  d_ : Qc;
  display_symbol_ : string
}.

(** [Unit.to_base]:
    [((self.a_ * value) + self.b_) / ((self.c_ * value) + self.d_)] *)
Definition to_base `{Arithmetic} (self : Unit) (value : Qc) : result Qc :=
  py_div (py_add (py_mul (a_ self) value) (b_ self))
         (py_add (py_mul (c_ self) value) (d_ self)).

(** [Unit.from_base]:
    [(self.b_ - (self.d_ * value)) / ((self.c_ * value) - self.a_)] *)
Definition from_base `{Arithmetic} (self : Unit) (value : Qc) : result Qc :=
  py_div (py_sub (b_ self) (py_mul (d_ self) value))
         (py_sub (py_mul (c_ self) value) (a_ self)).

(** [Unit.__eq__(self, other)] on two units: the display symbol is not
    compared. *)
Definition Unit_eqb (self other : Unit) : bool :=
  String.eqb (name_ self) (name_ other)
  && String.eqb (symbol_ self) (symbol_ other)
  && bool_decide (a_ self = a_ other)
  && bool_decide (b_ self = b_ other)
  && bool_decide (c_ self = c_ other)
  && bool_decide (d_ self = d_ other).

(** [Unit.__eq__(self, other)] where [other] may be [None]: the method
    reads [other.name_] first, which raises on [None]. *)
Definition Unit___eq__ (self : Unit) (other : option Unit) : result bool :=
  match other with
  | None => Raise AttributeError
  | Some o => Ok (Unit_eqb self o)
  end.

(** [x in units] for a list of units: the elements are compared with
    [x] in turn, by identity and then by [==].  When [x] is a unit the
    comparison is [Unit.__eq__]; when [x] is [None], [None == item] falls
    back on the reflected [item.__eq__(None)]. *)
Fixpoint unit_in (x : option Unit) (l : list Unit) : result bool :=
  match l with
  | [] => Ok false
  | item :: l' =>
      b ← Unit___eq__ item x;
      if (b : bool) then Ok true else unit_in x l'
  end.

(** ** class Quantity *)

(** [qid] is the identity of the object ([id(q)]); [qname_] and [units_]
    are the attributes [name_] and [units_] of the class. *)
Record Quantity : Type := mkQuantity {
  qid : nat;
  qname_ : string;
  units_ : list Unit
}.

(** [Quantity.add_unit] *)
Definition add_unit (self : Quantity) (unit : Unit) (is_base_unit : bool)
  : Quantity :=
  if is_base_unit
  then mkQuantity (qid self) (qname_ self) (unit :: units_ self)
  else mkQuantity (qid self) (qname_ self) (units_ self ++ [unit]).

(** [Quantity.base_unit]: [self.units_[0]]; the specification's
    EmptyQuantity is the absent result. *)
Definition base_unit (self : Quantity) : option Unit := head (units_ self).

(** [p == q] for two entries of a list of quantities, either of which may
    be [None]: identity. *)
Definition entry_is (p q : option Quantity) : bool :=
  match p, q with
  | Some p', Some q' => Nat.eqb (qid p') (qid q')
  | None, None => true
  | _, _ => false
  end.

(** [q in quantities] *)
Definition entry_in (q : option Quantity) (l : list (option Quantity)) : bool :=
  existsb (entry_is q) l.

(** ** class UnitManager *)

Record UnitManager : Type := mkUnitManager {
  unit_aliases_ : gmap string string;
  quantities_ : list Quantity
}.

(** [UnitManager.add_unit_alias] *)
Definition add_unit_alias (self : UnitManager)
    (unit_symbol_alias unit_symbol : option string) : result UnitManager :=
  match unit_symbol_alias with
  | None => Raise ValueError
  | Some alias =>
      match unit_symbol with
      | None => Raise ValueError
      | Some symbol =>
          Ok (mkUnitManager (<[Str.lower alias := symbol]> (unit_aliases_ self))
                            (quantities_ self))
      end
  end.

(** [UnitManager.find_quantity] *)
Fixpoint first_quantity (quantity_name : string) (qs : list Quantity)
  : option Quantity :=
  match qs with
  | [] => None
  | quantity :: qs' =>
      if String.eqb (qname_ quantity) quantity_name then Some quantity
      else first_quantity quantity_name qs'
  end.

Definition find_quantity (self : UnitManager) (quantity_name : option string)
  : result (option Quantity) :=
  match quantity_name with
  | None => Raise ValueError
  | Some n => Ok (first_quantity n (quantities_ self))
  end.

(** The two nested loops of [find_unit]:
    [for quantity in self.quantities_: for unit in quantity.units:
       if <test unit>: return unit] *)
Fixpoint first_unit (test : Unit → bool) (units : list Unit) : option Unit :=
  match units with
  | [] => None
  | unit :: units' => if test unit then Some unit else first_unit test units'
  end.

Fixpoint search_units (test : Unit → bool) (qs : list Quantity) : option Unit :=
  match qs with
  | [] => None
  | quantity :: qs' =>
      match first_unit test (units_ quantity) with
      | Some unit => Some unit
      | None => search_units test qs'
      end
  end.

(** [UnitManager.find_unit] *)
Definition find_unit (self : UnitManager) (unit_symbol : option string)
  : option Unit :=
  let unit_symbol :=
    match unit_symbol with
    | None => "unitless"
    | Some s => if String.eqb (Str.strip s) "" then "unitless" else s
    end in
  let lower_case_symbol := Str.strip (Str.lower unit_symbol) in
  let actual_unit_symbol := unit_aliases_ self !! lower_case_symbol in
  let unit_symbol :=
    match actual_unit_symbol with
    | Some actual => actual
    | None => unit_symbol
    end in
  match search_units (λ unit, String.eqb (symbol_ unit) unit_symbol)
                     (quantities_ self) with
  | Some unit => Some unit
  | None =>
      search_units
        (λ unit, String.eqb (Str.lower (symbol_ unit)) lower_case_symbol)
        (quantities_ self)
  end.

(** The first loop of [find_convertible_units] and of
    [find_quantities_by_unit] tests [unit in quantity.units] for a unit
    that is not [None]; that test cannot raise. *)
Definition has_unit (unit : Unit) (quantity : Quantity) : bool :=
  existsb (λ item, Unit_eqb item unit) (units_ quantity).

(** A Python [set] of units, kept as the list of its elements without two
    [==] elements.  [Unit.__hash__] is a function of the attributes that
    [Unit.__eq__] compares, so the set holds one element for each class of
    [==] units: the one that was added first.  The list is in insertion
    order; [list(units)] returns the elements in the order of the hash
    table, and the statements about it speak of membership only. *)
Definition set_in (unit : Unit) (s : list Unit) : bool :=
  existsb (Unit_eqb unit) s.

Definition set_add (s : list Unit) (unit : Unit) : list Unit :=
  if set_in unit s then s else s ++ [unit].

(** [s.update(units)] *)
Definition set_update (s : list Unit) (units : list Unit) : list Unit :=
  foldl set_add s units.

(** [s.discard(unit)] *)
Definition set_discard (s : list Unit) (unit : Unit) : list Unit :=
  List.filter (λ item, negb (Unit_eqb item unit)) s.

(** The loop of [find_convertible_units] over the quantities, from the
    set [units] built so far. *)
Definition collect (unit : Unit) (qs : list Quantity) (units : list Unit)
  : list Unit :=
  foldl (λ units quantity,
           if has_unit unit quantity
           then set_update units (units_ quantity) else units)
        units qs.

(** [UnitManager.find_convertible_units] *)
Definition find_convertible_units (self : UnitManager) (unit : option Unit)
  : result (list Unit) :=
  match unit with
  | None => Raise ValueError
  | Some unit =>
      let units := collect unit (quantities_ self) [] in
      Ok (set_discard units unit)
  end.

(** [UnitManager.find_convertible_units_by_symbol] *)
Definition find_convertible_units_by_symbol (self : UnitManager)
    (unit_symbol : option string) : result (list Unit) :=
  match find_unit self unit_symbol with
  | Some unit => find_convertible_units self (Some unit)
  | None => Ok []
  end.

(** The second loop of [find_quantities_by_unit]:
    [for quantity in quantities: if euclid_unit in quantity.units: ...; break].
    The result tells whether the loop reached its [break]. *)
Fixpoint euclid_scan (euclid_unit : option Unit) (quantities : list Quantity)
  : result bool :=
  match quantities with
  | [] => Ok false
  | quantity :: quantities' =>
      b ← unit_in euclid_unit (units_ quantity);
      if (b : bool) then Ok true else euclid_scan euclid_unit quantities'
  end.

(** [UnitManager.find_quantities_by_unit].  The entries of the result are
    quantities, and [None] when [find_quantity("dimensionless")] is. *)
Definition find_quantities_by_unit (self : UnitManager) (unit : option Unit)
  : result (list (option Quantity)) :=
  match unit with
  | None => Raise ValueError
  | Some unit =>
      let quantities := List.filter (has_unit unit) (quantities_ self) in
      let euclid_unit := find_unit self (Some "Euc") in
      found ← euclid_scan euclid_unit quantities;
      if (found : bool) then
        dimensionless ← find_quantity self (Some "dimensionless");
        Ok (map Some quantities ++ [dimensionless])
      else Ok (map Some quantities)
  end.

(** [UnitManager.find_quantities_by_symbol] *)
Definition find_quantities_by_symbol (self : UnitManager)
    (unit_symbol : option string) : result (list (option Quantity)) :=
  match find_unit self unit_symbol with
  | Some unit => find_quantities_by_unit self (Some unit)
  | None => Ok []
  end.

(** [UnitManager.can_convert] *)
Definition can_convert (self : UnitManager) (unit1 unit2 : option Unit)
  : result bool :=
  match unit1, unit2 with
  | Some _, Some _ =>
      quantities1 ← find_quantities_by_unit self unit1;
      quantities2 ← find_quantities_by_unit self unit2;
      Ok (existsb (λ q, entry_in q quantities2) quantities1)
  | _, _ => Raise ValueError
  end.

(** [UnitManager.can_convert_by_symbol] *)
Definition can_convert_by_symbol (self : UnitManager)
    (unit_symbol1 unit_symbol2 : option string) : result bool :=
  match unit_symbol1, unit_symbol2 with
  | Some _, Some _ =>
      let unit1 := find_unit self unit_symbol1 in
      let unit2 := find_unit self unit_symbol2 in
      match unit1, unit2 with
      | Some _, Some _ => can_convert self unit1 unit2
      | _, _ => Ok false
      end
  | _, _ => Ok false
  end.

(** An argument of [convert]: a [Unit] object (or [None]), or a [str]. *)
Inductive unit_arg : Type :=
  | ArgUnit (unit : option Unit)
  | ArgStr (symbol : string).

(** [if isinstance(x, str): x = self.find_unit(x)] *)
Definition resolve (self : UnitManager) (x : unit_arg) : option Unit :=
  match x with
  | ArgStr symbol => find_unit self (Some symbol)
  | ArgUnit unit => unit
  end.

(** [UnitManager.convert] *)
Definition convert `{Arithmetic} (self : UnitManager)
    (from_unit to_unit : unit_arg)
    (value : Qc) : result Qc :=
  let from_unit := resolve self from_unit in
  let to_unit := resolve self to_unit in
  match from_unit, to_unit with
  | Some from_unit, Some to_unit =>
      base_value ← to_base from_unit value;
      from_base to_unit base_value
  | _, _ => Raise ValueError
  end.

(** [UnitManager.convert_by_symbol] *)
Definition convert_by_symbol `{Arithmetic} (self : UnitManager)
    (from_unit_symbol to_unit_symbol : option string) (value : Qc)
  : result Qc :=
  match from_unit_symbol, to_unit_symbol with
  | Some _, Some _ =>
      let from_unit := find_unit self from_unit_symbol in
      let to_unit := find_unit self to_unit_symbol in
      match from_unit, to_unit with
      | Some _, Some _ => convert self (ArgUnit from_unit) (ArgUnit to_unit) value
      | _, _ => Ok value
      end
  | _, _ => Raise ValueError
  end.

(** ** Registries used in the examples

    The units and quantities follow the reference data of the
    specification's scenarios; [mi/h] is [1609.344 * x / 3600] metres per
    second, so that 55 mi/h are 88.51392 km/h. *)

Definition dec (n : Z) (d : positive) : Qc := Q2Qc (n # d).

Definition metre : Unit := mkUnit "metre" "m" 1 0 0 1 "m".
Definition foot : Unit := mkUnit "foot" "ft" (dec 3048 10000) 0 0 1 "ft".
Definition ohm_metre : Unit := mkUnit "ohm metre" "ohm.m" 1 0 0 1 "ohm.m".
Definition metre_per_second : Unit :=
  mkUnit "metre per second" "m/s" 1 0 0 1 "m/s".
Definition kilometre_per_hour : Unit :=
  mkUnit "kilometre per hour" "km/h" (dec 1000 1) 0 0 (dec 3600 1) "km/h".
Definition mile_per_hour : Unit :=
  mkUnit "mile per hour" "mi/h" (dec 1609344 1000) 0 0 (dec 3600 1) "mi/h".
Definition euclid : Unit := mkUnit "euclid" "Euc" 1 0 0 1 "Euc".
Definition percent : Unit := mkUnit "percent" "%" 1 0 0 (dec 100 1) "%".

Definition length_q : Quantity := mkQuantity 1 "length" [metre; foot].
Definition resistivity_q : Quantity :=
  mkQuantity 2 "electrical resistivity" [ohm_metre].
Definition speed_q : Quantity :=
  mkQuantity 3 "length per time"
             [metre_per_second; kilometre_per_hour; mile_per_hour].
Definition dimensionless_q : Quantity :=
  mkQuantity 4 "dimensionless" [euclid; percent].

(** The reference registry of the specification's scenarios, with the
    alias [mph] for [mi/h]. *)
Definition reference : UnitManager :=
  mkUnitManager {[ "mph" := "mi/h" ]}
                [length_q; resistivity_q; speed_q; dimensionless_q].

(** A registry in which no unit has the symbol [Euc]. *)
Definition lengths_only : UnitManager :=
  mkUnitManager ∅ [length_q].


(** The registry built by [UnitManager()] when its two data files are
    missing. *)
Definition empty_manager : UnitManager := mkUnitManager ∅ [].

(** ** Notions used in the statements *)

(** [u == v] for two units. *)
Definition unit_eq (u v : Unit) : Prop := Unit_eqb u v = true.

(** A registry holds each quantity object once, and two objects have two
    identities. *)
Definition distinct_identities (um : UnitManager) : Prop :=
  NoDup (map qid (quantities_ um)).

(** The resolution order as the specification words it, to be compared
    with [find_unit]. *)
Module Resolution.

(** A blank symbol: nothing but white space. *)
Fixpoint blank (s : string) : bool :=
  match s with
  | EmptyString => true
  | String c s' => Str.isspace c && blank s'
  end.

(** All quantities' unit lists, in the registry's order. *)
Definition all_units (self : UnitManager) : list Unit :=
  concat (map units_ (quantities_ self)).

Definition find_unit_spec (self : UnitManager) (symbol : option string)
  : option Unit :=
  (* 1. an absent or blank symbol is the sentinel *)
  let given :=
    match symbol with
    | None => "unitless"
    | Some s => if blank s then "unitless" else s
    end in
  (* 2. lower-case and trim; a known alias gives the symbol searched
        for, the lower-cased form is kept *)
  let lowered := Str.strip (Str.lower given) in
  let wanted := default given (unit_aliases_ self !! lowered) in
  (* 3. first exact match *)
  match List.find (λ u, String.eqb (symbol_ u) wanted) (all_units self) with
  | Some u => Some u
  | None =>
      (* 4. first match of the lower-cased symbols; 5. or absent *)
      List.find (λ u, String.eqb (Str.lower (symbol_ u)) lowered)
                (all_units self)
  end.

End Resolution.

(** ** Further operations of the classes *)

(** [set.add(quantity)] on a set of quantity objects: an object that is in
    the set is not added again.  The model puts a new object last; the
    order in which the new set is iterated is not known, and the
    statements about a registry after an addition are made for every
    order of its quantities ([same_registry]). *)
Definition set_add_object (quantity : Quantity) (qs : list Quantity)
  : list Quantity :=
  if existsb (λ q, Nat.eqb (qid q) (qid quantity)) qs then qs
  else qs ++ [quantity].

(** [UnitManager.add_quantity] *)
Definition add_quantity (self : UnitManager) (quantity : option Quantity)
  : result UnitManager :=
  match quantity with
  | None => Raise ValueError
  | Some quantity =>
      found ← find_quantity self (Some (qname_ quantity));
      match found with
      | Some _ => Raise ValueError
      | None =>
          Ok (mkUnitManager (unit_aliases_ self)
                            (set_add_object quantity (quantities_ self)))
      end
  end.

(** [UnitManager.find_or_create_quantity], for a name that is not [None].
    [new_id] is the identity of the object that [Quantity(quantity_name)]
    creates when the name is not found. *)
Definition find_or_create_quantity (self : UnitManager)
    (quantity_name : string) (new_id : nat) : result (Quantity * UnitManager) :=
  quantity ← find_quantity self (Some quantity_name);
  match quantity with
  | Some quantity => Ok (quantity, self)
  | None =>
      let quantity := mkQuantity new_id quantity_name [] in
      Ok (quantity,
          mkUnitManager (unit_aliases_ self)
                        (set_add_object quantity (quantities_ self)))
  end.

(** A Python [dict] from unit names to units, as the list of its items in
    insertion order: [d[k] = v] replaces the value of a key that is
    there, in place, and puts a new key last. *)
Fixpoint dict_set (d : list (string * Unit)) (k : string) (v : Unit)
  : list (string * Unit) :=
  match d with
  | [] => [(k, v)]
  | (k', v') :: d' =>
      if String.eqb k' k then (k', v) :: d' else (k', v') :: dict_set d' k v
  end.

(** [UnitManager.get_units] *)
Definition get_units (self : UnitManager) : list Unit :=
  let units :=
    foldl (λ units quantity,
             foldl (λ units unit, dict_set units (name_ unit) unit)
                   units (units_ quantity))
          [] (quantities_ self) in
  map snd units.

(** [UnitManager._find_unit_by_name] *)
Fixpoint _find_unit_by_name (units : list Unit) (name : string)
  : option Unit :=
  match units with
  | [] => None
  | unit :: units' =>
      if String.eqb (name_ unit) name then Some unit
      else _find_unit_by_name units' name
  end.

(** [UnitManager.get_display_symbol_by_unit] *)
Definition get_display_symbol_by_unit (unit : option Unit) : string :=
  match unit with
  | Some unit => display_symbol_ unit
  | None => ""
  end.

(** [[q.name for q in quantities]]: reading [name] of a [None] entry
    raises. *)
Fixpoint entry_names (quantities : list (option Quantity))
  : result (list string) :=
  match quantities with
  | [] => Ok []
  | None :: _ => Raise AttributeError
  | Some q :: quantities' =>
      names ← entry_names quantities';
      Ok (qname_ q :: names)
  end.

(** [UnitManager.find_quantity_by_unit] *)
Definition find_quantity_by_unit (self : UnitManager) (unit : option Unit)
  : result (option Quantity) :=
  match unit with
  | None => Raise ValueError
  | Some _ =>
      quantities ← find_quantities_by_unit self unit;
      match quantities with
      | [] => Ok None
      | [q] => Ok q
      | q0 :: _ =>
          names ← entry_names quantities;
          if existsb (String.eqb "time") names
          then find_quantity self (Some "time")
          else Ok q0
      end
  end.

(** The string methods of [_load_unit_aliases]:
    [line.startswith(c)], [c in line] and [line.split(c)] for a
    one-character string [c]. *)
Definition str_startswith (c : ascii) (line : string) : bool :=
  match line with
  | String c' _ => Ascii.eqb c' c
  | EmptyString => false
  end.

Fixpoint str_contains (c : ascii) (line : string) : bool :=
  match line with
  | EmptyString => false
  | String c' line' => Ascii.eqb c' c || str_contains c line'
  end.

Fixpoint str_split (c : ascii) (line : string) : list string :=
  match line with
  | EmptyString => [EmptyString]
  | String c' line' =>
      if Ascii.eqb c' c then EmptyString :: str_split c line'
      else match str_split c line' with
           | [] => [String c' EmptyString]
           | part :: parts => String c' part :: parts
           end
  end.

(** The body of the loop of [_load_unit_aliases], for one line;
    [key, value = ...] raises [ValueError] unless the list has two
    elements. *)
Definition load_alias_line (aliases : gmap string string) (line : string)
  : result (gmap string string) :=
  if str_startswith "#" line || negb (str_contains "=" line) then Ok aliases
  else
    match str_split "=" (Str.strip line) with
    | [key; value] => Ok (<[Str.strip key := Str.strip value]> aliases)
    | _ => Raise ValueError
    end.

Fixpoint load_alias_lines (aliases : gmap string string) (lines : list string)
  : result (gmap string string) :=
  match lines with
  | [] => Ok aliases
  | line :: lines' =>
      aliases' ← load_alias_line aliases line;
      load_alias_lines aliases' lines'
  end.

(** What [open(UNIT_ALIASES_FILE, 'r')] and [stream.readlines()] come
    to, before the loop stores anything: an [IOError] (the file is
    missing or cannot be read), a [UnicodeDecodeError] (the bytes of the
    file are not text in the encoding of the locale), or the lines. *)
Inductive alias_file : Type :=
  | Unreadable
  | Undecodable
  | Lines (lines : list string).

(** [UnitManager._load_unit_aliases].  The [except IOError] clause
    swallows the [IOError] of an unreadable file and nothing else: a
    [UnicodeDecodeError] is a [ValueError], not an [IOError], and leaves
    the method as the [ValueError] of a malformed line does.  An
    exception that leaves the method leaves the constructor that calls
    it: the instance, with the aliases stored so far, is not returned. *)
Definition _load_unit_aliases (self : UnitManager) (file : alias_file)
  : result UnitManager :=
  match file with
  | Unreadable => Ok self
  | Undecodable => Raise UnicodeDecodeError
  | Lines lines =>
      aliases ← load_alias_lines (unit_aliases_ self) lines;
      Ok (mkUnitManager aliases (quantities_ self))
  end.

(** ** Further notions used in the statements *)

(** No two quantities of the registry have the same name: what
    [add_quantity] checks before it adds one. *)
Definition unique_names (um : UnitManager) : Prop :=
  NoDup (map qname_ (quantities_ um)).

(** The same aliases and the same set of quantities, iterated in some
    order. *)
Definition same_registry (um um' : UnitManager) : Prop :=
  unit_aliases_ um = unit_aliases_ um'
  ∧ quantities_ um ≡ₚ quantities_ um'.

(** The units of all quantities, in the order of the two nested loops. *)
Definition member_units (um : UnitManager) : list Unit :=
  concat (map units_ (quantities_ um)).

(** What [find_unit] computes from its argument before it searches: the
    symbol after the sentinel, and its lower-cased and trimmed form. *)
Definition given_symbol (unit_symbol : option string) : string :=
  match unit_symbol with
  | None => "unitless"
  | Some s => if String.eqb (Str.strip s) "" then "unitless" else s
  end.

Definition lookup_key (unit_symbol : option string) : string :=
  Str.strip (Str.lower (given_symbol unit_symbol)).

(** [a*d - b*c] *)
Definition determinant (u : Unit) : Qc :=
  (a_ u * d_ u - b_ u * c_ u)%Qc.

(** The body of the inner loop of [get_units]. *)
Definition dict_step (d : list (string * Unit)) (unit : Unit)
  : list (string * Unit) :=
  dict_set d (name_ unit) unit.

(** What the dictionary holds after the units [p] have been stored: one
    item for each name, the name of its unit, and its unit is the last
    unit of [p] with that name. *)
Definition dict_inv (p : list Unit) (d : list (string * Unit)) : Prop :=
  NoDup (map fst d)
  ∧ (∀ k v, (k, v) ∈ d →
            name_ v = k
            ∧ ∃ l1 l2, p = l1 ++ v :: l2 ∧ k ∉ map name_ l2)
  ∧ (∀ u, u ∈ p → name_ u ∈ map fst d).

(** [find_unit] as a function of the key and of the symbol it searches
    for. *)
Definition search (um : UnitManager) (wanted key : string) : option Unit :=
  match List.find (λ u, String.eqb (symbol_ u) wanted) (member_units um) with
  | Some u => Some u
  | None =>
      List.find (λ u, String.eqb (Str.lower (symbol_ u)) key) (member_units um)
  end.

(** The number of occurrences of a character in a string. *)
Fixpoint str_count (c : ascii) (s : string) : nat :=
  match s with
  | EmptyString => 0
  | String c' s' => (if Ascii.eqb c' c then 1 else 0) + str_count c s'
  end.

(** More registries for the examples. *)
Definition second : Unit := mkUnit "second" "s" 1 0 0 1 "s".
Definition hertz_period : Unit := mkUnit "per hertz" "1/Hz" 1 0 0 1 "1/Hz".
Definition time_q : Quantity := mkQuantity 5 "time" [second; hertz_period].
Definition period_q : Quantity :=
  mkQuantity 6 "reciprocal frequency" [hertz_period; euclid].
Definition ratio_q : Quantity :=
  mkQuantity 7 "length per length" [percent; euclid].

(** A registry with a unit in two quantities, one of them [time]. *)
Definition with_time : UnitManager :=
  mkUnitManager ∅ [period_q; time_q; dimensionless_q].

(** A registry in which [Euc] resolves and no quantity is named
    [dimensionless]. *)
Definition no_dimensionless : UnitManager :=
  mkUnitManager ∅ [ratio_q; period_q].

(** [1/x], as in a reciprocal quantity. *)
Definition reciprocal : Unit := mkUnit "reciprocal" "1/x" 0 1 1 0 "1/x".

(** [(2*x + 4) / (x + 2)]: a unit whose determinant is zero. *)
Definition flat : Unit :=
  mkUnit "flat" "flat" (dec 2 1) (dec 4 1) 1 (dec 2 1) "flat".



(** * Properties *)

(** ** Unit: the conversion formula *)

Section conversion.
Local Open Scope Qc_scope.

Lemma Qc_by_compute (x y : Qc) : bool_decide (x = y) = true → x = y.
Proof. apply bool_decide_eq_true_1. Qed.

Lemma py_div_ok `{Arithmetic} (x y : Qc) :
  y ≠ 0 → py_div x y = Ok (rnd (x / y)).
Proof. intros Hy. unfold py_div. by destruct (decide (y = 0)). Qed.


Lemma py_div_raises `{Arithmetic} (x y : Qc) : raises (py_div x y) ↔ y = 0.
Proof. unfold py_div. destruct (decide (y = 0)); simpl; tauto. Qed.

(** With an arithmetic that does not round, the operators are those of
    the rationals. *)
Lemma exact_operators (ar : Arithmetic) (x y : Qc) :
  is_exact ar →
  py_mul x y = x * y ∧ py_add x y = x + y ∧ py_sub x y = x - y
  ∧ (y ≠ 0 → py_div x y = Ok (x / y)).
Proof.
  intros He. unfold py_mul, py_add, py_sub. rewrite !He.
  repeat split. intros Hy. by rewrite py_div_ok, He.
Qed.

Lemma to_base_exact (ar : Arithmetic) (u : Unit) (x : Qc) :
  is_exact ar →
  c_ u * x + d_ u ≠ 0 →
  to_base u x = Ok ((a_ u * x + b_ u) / (c_ u * x + d_ u)).
Proof.
  intros He Hden. unfold to_base, py_mul, py_add. rewrite !He.
  by rewrite py_div_ok, He.
Qed.

Lemma from_base_exact (ar : Arithmetic) (u : Unit) (x : Qc) :
  is_exact ar →
  c_ u * x - a_ u ≠ 0 →
  from_base u x = Ok ((b_ u - d_ u * x) / (c_ u * x - a_ u)).
Proof.
  intros He Hden. unfold from_base, py_mul, py_sub. rewrite !He.
  by rewrite py_div_ok, He.
Qed.

Lemma fraction_exact : is_exact fraction.
Proof. by intros x. Qed.




(** The inverse transform has a non-zero denominator at [to_base(x)] as
    soon as [a*d - b*c] is not zero. *)
Lemma inverse_denominator (u : Unit) (x : Qc) :
  a_ u * d_ u - b_ u * c_ u ≠ 0 →
  c_ u * x + d_ u ≠ 0 →
  c_ u * ((a_ u * x + b_ u) / (c_ u * x + d_ u)) - a_ u ≠ 0.
Proof.
  intros Hdet Hden H. apply Hdet.
  assert (a_ u * d_ u - b_ u * c_ u
          = - ((c_ u * ((a_ u * x + b_ u) / (c_ u * x + d_ u)) - a_ u)
               * (c_ u * x + d_ u))) as -> by (by field).
  rewrite H. ring.
Qed.

(** C3, as the specification states it, fails on the numbers of the
    code: [Decimal] and [float] round every operation.  For kilometres
    per hour, [a*d - b*c] and both denominators are not zero, and
    [from_base(to_base(7))] is 6.999999999999999999999999998 on
    [Decimal] values; on [float] values [from_base(to_base(15.0))] is
    15.000000000000002. *)
Lemma round_trip_counterexample :
  a_ kilometre_per_hour * d_ kilometre_per_hour
  - b_ kilometre_per_hour * c_ kilometre_per_hour ≠ 0
  ∧ @to_base decimal kilometre_per_hour (dec 7 1)
    = Ok (dec 1944444444444444444444444444 1000000000000000000000000000)
  ∧ (@to_base decimal kilometre_per_hour (dec 7 1)
     ≫= @from_base decimal kilometre_per_hour)
    = Ok (dec 6999999999999999999999999998 1000000000000000000000000000)
  ∧ (@to_base decimal kilometre_per_hour (dec 7 1)
     ≫= @from_base decimal kilometre_per_hour) ≠ Ok (dec 7 1)
  ∧ (@to_base binary64 kilometre_per_hour (dec 15 1)
     ≫= @from_base binary64 kilometre_per_hour)
    = Ok (dec 8444249301319681 562949953421312)
  ∧ (@to_base binary64 kilometre_per_hour (dec 15 1)
     ≫= @from_base binary64 kilometre_per_hour) ≠ Ok (dec 15 1).
Proof. apply (bool_decide_unpack _). by vm_compute. Qed.

(** C3, amended.  Round trip over exact arithmetic (a number type whose
    operators do not round, such as [fractions.Fraction]): when
    [a*d - b*c] is not zero and neither denominator vanishes ([c*x+d] in
    [to_base], [c*y-a] in [from_base] at [y = to_base(x)]),
    [from_base(to_base(x))] is [x]. *)
Theorem round_trip (ar : Arithmetic) (u : Unit) (x : Qc) :
  is_exact ar →
  a_ u * d_ u - b_ u * c_ u ≠ 0 →
  c_ u * x + d_ u ≠ 0 →
  c_ u * ((a_ u * x + b_ u) / (c_ u * x + d_ u)) - a_ u ≠ 0 →
  (to_base u x ≫= from_base u) = Ok x.
Proof.
  intros He Hdet Hden1 Hden2.
  rewrite (to_base_exact ar u x He Hden1). simpl.
  rewrite (from_base_exact ar u _ He Hden2). f_equal.
  field. split; [done|].
  intros H. apply Hdet.
  assert (a_ u * d_ u - b_ u * c_ u
          = - (c_ u * (a_ u * x + b_ u) - a_ u * (c_ u * x + d_ u)))
    as -> by ring.
  rewrite H. ring.
Qed.

Lemma round_trip_witness :
  (@to_base fraction mile_per_hour (dec 55 1) ≫= @from_base fraction mile_per_hour)
  = Ok (dec 55 1).
Proof.
  apply round_trip; [apply fraction_exact | ..];
    apply (bool_decide_unpack _); by vm_compute.
Defined.




End conversion.

(** ** find_unit: the resolution order *)

Section resolution.
Import Resolution.

Lemma lstrip_empty (s : string) : Str.lstrip s = "" ↔ blank s = true.
Proof.
  induction s as [|c s IH]; simpl; [done|].
  destruct (Str.isspace c); simpl; [done|]. split; discriminate.
Qed.

Lemma lstrip_head (s : string) c r :
  Str.lstrip s = String c r → Str.isspace c = false.
Proof.
  induction s as [|c' s IH]; simpl; [discriminate|].
  destruct (Str.isspace c') eqn:Hc; [done|]. by intros [= <- _].
Qed.

Lemma strip_empty (s : string) : Str.strip s = "" ↔ blank s = true.
Proof.
  rewrite <- lstrip_empty. unfold Str.strip.
  destruct (Str.lstrip s) as [|c r] eqn:Hl; [done|].
  apply lstrip_head in Hl. simpl. rewrite Hl.
  split; [|discriminate]. by destruct (Str.rstrip r).
Qed.

Lemma strip_eqb_empty (s : string) : String.eqb (Str.strip s) "" = blank s.
Proof.
  destruct (blank s) eqn:Hb.
  - apply strip_empty in Hb. by rewrite Hb.
  - apply String.eqb_neq. intros H. apply strip_empty in H. congruence.
Qed.

Lemma first_unit_find (test : Unit → bool) (units : list Unit) :
  first_unit test units = List.find test units.
Proof. induction units as [|u units IH]; simpl; [done|]. by rewrite IH. Qed.

Lemma find_app {A} (test : A → bool) (l k : list A) :
  List.find test (l ++ k)
  = match List.find test l with
    | Some x => Some x
    | None => List.find test k
    end.
Proof.
  induction l as [|x l IH]; simpl; [done|]. by destruct (test x).
Qed.

(** The two nested loops return the first unit, over the unit lists of
    all quantities taken in order, that passes the test. *)
Lemma search_units_find (test : Unit → bool) (qs : list Quantity) :
  search_units test qs = List.find test (concat (map units_ qs)).
Proof.
  induction qs as [|q qs IH]; simpl; [done|].
  rewrite find_app, first_unit_find, IH. done.
Qed.

(** C4.  [find_unit] follows the resolution order of the specification:
    sentinel for an absent or blank symbol; lower-casing and trimming,
    with the alias substituted for the exact search only; first exact
    match over all unit lists; else first match of the lower-cased unit
    symbols against the lower-cased input; else absent. *)
Theorem find_unit_resolution (self : UnitManager) (symbol : option string) :
  find_unit self symbol = find_unit_spec self symbol.
Proof.
  unfold find_unit, find_unit_spec, all_units.
  rewrite !search_units_find.
  destruct symbol as [s|]; [rewrite strip_eqb_empty|];
    by destruct (unit_aliases_ self !! _).
Qed.

(** A unit returned by [find_unit] is a member of some quantity. *)
Lemma find_unit_member (self : UnitManager) symbol unit :
  find_unit self symbol = Some unit →
  ∃ q, q ∈ quantities_ self ∧ unit ∈ units_ q.
Proof.
  unfold find_unit. rewrite !search_units_find. intros H.
  assert (unit ∈ concat (map units_ (quantities_ self))) as Hin.
  { apply list_elem_of_In.
    destruct (List.find _ _) as [u|] eqn:H1.
    - injection H as <-. by apply find_some in H1 as [? _].
    - by apply find_some in H as [? _]. }
  apply list_elem_of_In, in_concat in Hin as (l & Hl & Hu).
  apply in_map_iff in Hl as (q & <- & Hq).
  exists q. by rewrite !list_elem_of_In.
Qed.

End resolution.

(** ** convert and the symbol-keyed wrappers *)

Section conversion_by_registry.
Local Open Scope Qc_scope.

(** C1.  [convert] resolves a string argument with [find_unit] and takes a
    unit argument as it is; it raises [ValueError] when either side is
    unresolved; otherwise it is [to.from_base(from.to_base(v))], whatever
    the quantities of the two units are: when no denominator vanishes the
    result is a number, also for two units that [can_convert] tells
    apart (here miles per hour and ohm metres). *)
Theorem convert_composition (ar : Arithmetic) :
  (∀ um s, resolve um (ArgStr s) = find_unit um (Some s))
  ∧ (∀ um u, resolve um (ArgUnit u) = u)
  ∧ (∀ um from to v,
       resolve um from = None ∨ resolve um to = None →
       convert um from to v = Raise ValueError)
  ∧ (∀ um from to f t v,
       resolve um from = Some f → resolve um to = Some t →
       convert um from to v = (to_base f v ≫= from_base t))
  ∧ (∀ um from to f t v y,
       resolve um from = Some f → resolve um to = Some t →
       to_base f v = Ok y →
       py_sub (py_mul (c_ t) y) (a_ t) ≠ 0 →
       convert um from to v
       = Ok (rnd (py_sub (b_ t) (py_mul (d_ t) y)
                  / py_sub (py_mul (c_ t) y) (a_ t))))
  ∧ (is_exact ar →
     ∀ um from to f t v,
       resolve um from = Some f → resolve um to = Some t →
       c_ f * v + d_ f ≠ 0 →
       c_ t * ((a_ f * v + b_ f) / (c_ f * v + d_ f)) - a_ t ≠ 0 →
       convert um from to v
       = Ok ((b_ t - d_ t * ((a_ f * v + b_ f) / (c_ f * v + d_ f)))
             / (c_ t * ((a_ f * v + b_ f) / (c_ f * v + d_ f)) - a_ t)))
  ∧ (can_convert reference (Some mile_per_hour) (Some ohm_metre) = Ok false
     ∧ @convert decimal reference (ArgStr "mi/h") (ArgStr "ohm.m") (dec 55 1)
       = Ok (dec 2458720 100000)
     ∧ @convert fraction reference (ArgStr "mi/h") (ArgStr "ohm.m") (dec 55 1)
       = Ok (dec 2458720 100000)).
Proof.
  split; [done|]. split; [done|]. split; [|split; [|split; [|split]]].
  - intros um from to v [H|H]; unfold convert; rewrite H; [done|].
    by destruct (resolve um from).
  - intros um from to f t v Hf Ht. unfold convert. by rewrite Hf, Ht.
  - intros um from to f t v y Hf Ht Hy Hden. unfold convert.
    rewrite Hf, Ht, Hy. simpl. unfold from_base. by rewrite py_div_ok.
  - intros He um from to f t v Hf Ht H1 H2. unfold convert. rewrite Hf, Ht.
    rewrite (to_base_exact ar f v He H1). simpl.
    by rewrite (from_base_exact ar t _ He H2).
  - apply (bool_decide_unpack _). by vm_compute.
Qed.

(** The specification's fourth scenario: 55 miles per hour are 88.51392
    kilometres per hour. *)
Lemma convert_composition_witness :
  @convert decimal reference (ArgStr "mi/h") (ArgStr "km/h") (dec 55 1)
  = Ok (dec 8851392 100000)
  ∧ @convert decimal reference (ArgStr "furlong") (ArgStr "km/h") (dec 55 1)
    = Raise ValueError.
Proof.
  destruct (convert_composition decimal) as (_ & _ & Hnone & _ & Hnum & _).
  split.
  - rewrite (Hnum reference _ _ mile_per_hour kilometre_per_hour
               (dec 55 1) (dec 2458720 100000));
      [ | by vm_compute | by vm_compute | | ];
      apply (bool_decide_unpack _); by vm_compute.
  - apply Hnone. left. by vm_compute.
Defined.

(** C5, as the specification states it, fails for an absent symbol:
    [convert_by_symbol] raises [ValueError] then, where the claim has it
    return the value. *)
Lemma symbol_wrappers_counterexample :
  @convert_by_symbol decimal reference None (Some "m") 1 = Raise ValueError
  ∧ @convert_by_symbol decimal reference None (Some "m") 1 ≠ Ok 1.
Proof. split; [reflexivity | discriminate]. Qed.

(** C5, amended.  When a symbol fails to resolve with [find_unit] (an
    absent symbol is resolved as the sentinel [unitless]),
    [find_convertible_units_by_symbol] and [find_quantities_by_symbol]
    return an empty list.  [can_convert_by_symbol] returns false when
    either symbol is absent or fails to resolve.  [convert_by_symbol]
    returns the value unchanged when both symbols are present and either
    fails to resolve, and raises [ValueError] when either is absent. *)
Theorem symbol_wrappers_degrade (ar : Arithmetic) (um : UnitManager) :
  (∀ s, find_unit um s = None →
        find_convertible_units_by_symbol um s = Ok []
        ∧ find_quantities_by_symbol um s = Ok [])
  ∧ (∀ s1 s2,
       s1 = None ∨ s2 = None ∨ find_unit um s1 = None ∨ find_unit um s2 = None →
       can_convert_by_symbol um s1 s2 = Ok false)
  ∧ (∀ s1 s2 v,
       find_unit um (Some s1) = None ∨ find_unit um (Some s2) = None →
       convert_by_symbol um (Some s1) (Some s2) v = Ok v)
  ∧ (∀ s1 s2 v,
       s1 = None ∨ s2 = None →
       convert_by_symbol um s1 s2 v = Raise ValueError).
Proof.
  repeat split.
  - unfold find_convertible_units_by_symbol. by rewrite H.
  - unfold find_quantities_by_symbol. by rewrite H.
  - intros s1 s2 H. unfold can_convert_by_symbol.
    destruct s1 as [s1|], s2 as [s2|]; try done.
    destruct H as [H|[H|[H|H]]]; try done; rewrite H; [done|].
    by destruct (find_unit um (Some s1)).
  - intros s1 s2 v H. unfold convert_by_symbol.
    destruct H as [H|H]; rewrite H; [done|].
    by destruct (find_unit um (Some s1)).
  - intros s1 s2 v [-> | ->]; [done|]. by destruct s1.
Qed.

Lemma symbol_wrappers_degrade_witness :
  find_unit reference (Some "furlong") = None
  ∧ find_convertible_units_by_symbol reference (Some "furlong") = Ok []
  ∧ find_quantities_by_symbol reference None = Ok []
  ∧ can_convert_by_symbol reference (Some "m") (Some "furlong") = Ok false
  ∧ @convert_by_symbol decimal reference (Some "furlong") (Some "m") 1 = Ok 1
  ∧ @convert_by_symbol decimal reference (Some "m") None 1 = Raise ValueError.
Proof.
  destruct (symbol_wrappers_degrade decimal reference)
    as (Hfind & Hcan & Hconv & Habs).
  split; [by vm_compute|].
  split; [apply Hfind; by vm_compute|].
  split; [apply Hfind; by vm_compute|].
  split; [apply Hcan; right; right; right; by vm_compute|].
  split; [apply Hconv; left; by vm_compute|].
  apply Habs. by right.
Defined.

End conversion_by_registry.

(** ** find_quantities_by_unit and can_convert *)

Section quantities_of_a_unit.

Lemma unit_in_some (e : Unit) (l : list Unit) :
  unit_in (Some e) l = Ok (existsb (λ item, Unit_eqb item e) l).
Proof.
  induction l as [|item l IH]; simpl; [done|].
  destruct (Unit_eqb item e); simpl; [done|]. apply IH.
Qed.

(** With [None] on the left, [in] raises on the first element. *)
Lemma unit_in_none (l : list Unit) :
  unit_in None l = match l with [] => Ok false | _ => Raise AttributeError end.
Proof. by destruct l. Qed.

Lemma euclid_scan_some (e : Unit) (qs : list Quantity) :
  euclid_scan (Some e) qs = Ok (existsb (has_unit e) qs).
Proof.
  induction qs as [|q qs IH]; simpl; [done|].
  rewrite unit_in_some. simpl. unfold has_unit at 1.
  destruct (existsb _ (units_ q)); simpl; [done|]. apply IH.
Qed.

Lemma has_unit_nonempty (u : Unit) (q : Quantity) :
  has_unit u q = true → units_ q ≠ [].
Proof. unfold has_unit. by destruct (units_ q). Qed.

Lemma euclid_scan_none (u : Unit) (qs : list Quantity) :
  euclid_scan None (List.filter (has_unit u) qs)
  = match List.filter (has_unit u) qs with
    | [] => Ok false
    | _ => Raise AttributeError
    end.
Proof.
  destruct (List.filter (has_unit u) qs) as [|q l] eqn:Hf; [done|].
  assert (has_unit u q = true) as Hq.
  { assert (In q (List.filter (has_unit u) qs)) as Hin by (rewrite Hf; by left).
    by apply filter_In in Hin as [_ ?]. }
  apply has_unit_nonempty in Hq. simpl. rewrite unit_in_none.
  by destruct (units_ q).
Qed.

(** What [find_quantities_by_unit] returns when [Euc] resolves: the
    quantities that contain the unit, in the registry's order, followed by
    the result of [find_quantity("dimensionless")], once, when one of
    them contains the unit that [Euc] resolves to. *)
Lemma find_quantities_by_unit_resolved (um : UnitManager) (u e : Unit) :
  find_unit um (Some "Euc") = Some e →
  find_quantities_by_unit um (Some u)
  = Ok (map Some (List.filter (has_unit u) (quantities_ um))
        ++ (if existsb (has_unit e) (List.filter (has_unit u) (quantities_ um))
            then [first_quantity "dimensionless" (quantities_ um)]
            else [])).
Proof.
  intros He. unfold find_quantities_by_unit. rewrite He, euclid_scan_some.
  simpl. destruct (existsb _ _); simpl; [done|]. by rewrite app_nil_r.
Qed.

(** What it does when [Euc] does not resolve: the membership test
    [euclid_unit in quantity.units] has [None] on its left. *)
Lemma find_quantities_by_unit_unresolved (um : UnitManager) (u : Unit) :
  find_unit um (Some "Euc") = None →
  find_quantities_by_unit um (Some u)
  = match List.filter (has_unit u) (quantities_ um) with
    | [] => Ok []
    | _ => Raise AttributeError
    end.
Proof.
  intros He. unfold find_quantities_by_unit. rewrite He, euclid_scan_none.
  by destruct (List.filter _ _).
Qed.

Lemma find_quantities_by_unit_raise (um : UnitManager) (u : Unit) (e : exn) :
  find_quantities_by_unit um (Some u) = Raise e → e = AttributeError.
Proof.
  destruct (find_unit um (Some "Euc")) as [eu|] eqn:He.
  - by rewrite (find_quantities_by_unit_resolved _ _ _ He).
  - rewrite (find_quantities_by_unit_unresolved _ _ He).
    destruct (List.filter _ _); congruence.
Qed.

Lemma first_quantity_member (n : string) (qs : list Quantity) (q : Quantity) :
  first_quantity n qs = Some q → q ∈ qs ∧ qname_ q = n.
Proof.
  induction qs as [|q' qs IH]; simpl; [done|].
  destruct (String.eqb (qname_ q') n) eqn:Hn.
  - intros [= <-]. split; [by left | by apply String.eqb_eq].
  - intros H. destruct (IH H). split; [by right | done].
Qed.

(** Every quantity in the result is a quantity of the registry. *)
Lemma find_quantities_by_unit_member (um : UnitManager) (u : Unit) l q :
  find_quantities_by_unit um (Some u) = Ok l →
  Some q ∈ l → q ∈ quantities_ um.
Proof.
  destruct (find_unit um (Some "Euc")) as [eu|] eqn:He.
  - rewrite (find_quantities_by_unit_resolved _ _ _ He). intros [= <-] Hin.
    apply elem_of_app in Hin as [Hin|Hin].
    + apply list_elem_of_fmap in Hin as (q' & [= <-] & Hq).
      apply list_elem_of_In, filter_In in Hq as [Hq _].
      by apply list_elem_of_In.
    + destruct (existsb _ _); [|by apply elem_of_nil in Hin].
      apply list_elem_of_singleton in Hin. symmetry in Hin.
      by apply first_quantity_member in Hin as [? _].
  - rewrite (find_quantities_by_unit_unresolved _ _ He).
    destruct (List.filter _ _); [|done]. intros [= <-] Hin.
    by apply elem_of_nil in Hin.
Qed.

(** C7.  In a registry where no unit resolves from [Euc],
    [find_quantities_by_unit] does not return the quantities that contain
    the unit: [find_unit("Euc")] is [None], and the test
    [euclid_unit in quantity.units] ends in [Unit.__eq__] reading
    [None.name_]. *)
Theorem find_quantities_by_unit_without_euclid :
  find_unit lengths_only (Some "Euc") = None
  ∧ List.filter (has_unit metre) (quantities_ lengths_only) = [length_q]
  ∧ find_quantities_by_unit lengths_only (Some metre) = Raise AttributeError
  ∧ find_quantities_by_unit lengths_only None = Raise ValueError.
Proof. by vm_compute. Qed.

Lemma same_identity (qs : list Quantity) (p q : Quantity) :
  NoDup (map qid qs) → p ∈ qs → q ∈ qs → qid p = qid q → p = q.
Proof.
  induction qs as [|x qs IH]; simpl; intros Hnd Hp Hq Hid.
  - by apply elem_of_nil in Hp.
  - apply NoDup_cons in Hnd as [Hx Hnd].
    apply elem_of_cons in Hp as [->|Hp]; apply elem_of_cons in Hq as [->|Hq].
    + done.
    + exfalso. apply Hx. rewrite Hid. by apply list_elem_of_fmap_2.
    + exfalso. apply Hx. rewrite <- Hid. by apply list_elem_of_fmap_2.
    + by apply IH.
Qed.

Lemma entry_is_refl (e : option Quantity) : entry_is e e = true.
Proof. destruct e; simpl; [apply Nat.eqb_refl | done]. Qed.

Lemma entry_is_sym (p q : option Quantity) : entry_is p q = entry_is q p.
Proof. destruct p, q; simpl; try done. apply Nat.eqb_sym. Qed.

Lemma entry_in_true (e : option Quantity) (l : list (option Quantity)) :
  entry_in e l = true ↔ ∃ e', e' ∈ l ∧ entry_is e e' = true.
Proof.
  unfold entry_in. rewrite existsb_exists.
  split; intros (e' & H1 & H2); exists e'; by rewrite ?list_elem_of_In in *.
Qed.

Lemma any_entry_in_true (l1 l2 : list (option Quantity)) :
  existsb (λ q, entry_in q l2) l1 = true
  ↔ ∃ e1 e2, e1 ∈ l1 ∧ e2 ∈ l2 ∧ entry_is e1 e2 = true.
Proof.
  rewrite existsb_exists. split.
  - intros (e1 & H1 & H2). apply entry_in_true in H2 as (e2 & H2 & H3).
    exists e1, e2. by rewrite list_elem_of_In.
  - intros (e1 & e2 & H1 & H2 & H3). exists e1.
    rewrite <- list_elem_of_In. split; [done|].
    apply entry_in_true. by exists e2.
Qed.

Lemma any_entry_in_sym (l1 l2 : list (option Quantity)) :
  existsb (λ q, entry_in q l2) l1 = existsb (λ q, entry_in q l1) l2.
Proof.
  apply eq_true_iff_eq. rewrite !any_entry_in_true.
  split; intros (e1 & e2 & H1 & H2 & H3); exists e2, e1;
    by rewrite entry_is_sym.
Qed.

(** The [None] entry only stands for a missing [dimensionless]. *)
Lemma find_quantities_by_unit_none (um : UnitManager) (u : Unit) l :
  find_quantities_by_unit um (Some u) = Ok l →
  None ∈ l → first_quantity "dimensionless" (quantities_ um) = None.
Proof.
  destruct (find_unit um (Some "Euc")) as [eu|] eqn:He.
  - rewrite (find_quantities_by_unit_resolved _ _ _ He). intros [= <-] Hin.
    apply elem_of_app in Hin as [Hin|Hin].
    + by apply list_elem_of_fmap in Hin as (q' & [=] & _).
    + destruct (existsb _ _); [|by apply elem_of_nil in Hin].
      by apply list_elem_of_singleton in Hin.
  - rewrite (find_quantities_by_unit_unresolved _ _ He).
    destruct (List.filter _ _); [|done]. intros [= <-] Hin.
    by apply elem_of_nil in Hin.
Qed.

(** C6, as the specification states it, fails in a registry where no
    quantity is named [dimensionless]: the two lists then end in the
    [None] that [find_quantity("dimensionless")] returned, and
    [can_convert] is true for two units whose lists share no quantity. *)
Lemma can_convert_counterexample :
  find_quantities_by_unit no_dimensionless (Some percent)
  = Ok [Some ratio_q; None]
  ∧ find_quantities_by_unit no_dimensionless (Some hertz_period)
    = Ok [Some period_q; None]
  ∧ can_convert no_dimensionless (Some percent) (Some hertz_period) = Ok true
  ∧ ¬ ∃ q : Quantity,
        Some q ∈ [Some ratio_q; None] ∧ Some q ∈ [Some period_q; None].
Proof.
  split; [by vm_compute|]. split; [by vm_compute|]. split; [by vm_compute|].
  intros (q & H1 & H2).
  apply elem_of_cons in H1 as [H1|H1];
    [|apply list_elem_of_singleton in H1; discriminate].
  apply elem_of_cons in H2 as [H2|H2];
    [|apply list_elem_of_singleton in H2; discriminate].
  assert (qid ratio_q = qid period_q) by congruence. discriminate.
Qed.

(** C6, amended.  For two present units, [can_convert] returns true
    exactly when [find_quantities_by_unit] returns a list for each of
    them and the two lists share an entry; an entry is a quantity, or the
    [None] appended in place of a missing [dimensionless], so that in a
    registry with a quantity named [dimensionless] the shared entry is a
    quantity.  It returns a boolean whenever the two lists are returned.
    [can_convert(u1, u2)] and [can_convert(u2, u1)] are the same, result
    or exception.  It raises [ValueError] when either unit is [None]. *)
Theorem can_convert_shared_quantity (um : UnitManager) (u1 u2 : Unit) :
  distinct_identities um →
  (can_convert um (Some u1) (Some u2) = Ok true
   ↔ ∃ l1 l2, find_quantities_by_unit um (Some u1) = Ok l1
              ∧ find_quantities_by_unit um (Some u2) = Ok l2
              ∧ ∃ e, e ∈ l1 ∧ e ∈ l2)
  ∧ (is_Some (first_quantity "dimensionless" (quantities_ um)) →
     (can_convert um (Some u1) (Some u2) = Ok true
      ↔ ∃ l1 l2, find_quantities_by_unit um (Some u1) = Ok l1
                 ∧ find_quantities_by_unit um (Some u2) = Ok l2
                 ∧ ∃ q : Quantity, Some q ∈ l1 ∧ Some q ∈ l2))
  ∧ (∀ l1 l2,
       find_quantities_by_unit um (Some u1) = Ok l1 →
       find_quantities_by_unit um (Some u2) = Ok l2 →
       ∃ b, can_convert um (Some u1) (Some u2) = Ok b)
  ∧ can_convert um (Some u1) (Some u2) = can_convert um (Some u2) (Some u1)
  ∧ (∀ u, can_convert um None u = Raise ValueError
          ∧ can_convert um u None = Raise ValueError).
Proof.
  intros Hwf.
  assert (can_convert um (Some u1) (Some u2) = Ok true
          ↔ ∃ l1 l2, find_quantities_by_unit um (Some u1) = Ok l1
                     ∧ find_quantities_by_unit um (Some u2) = Ok l2
                     ∧ ∃ e, e ∈ l1 ∧ e ∈ l2) as Hiff.
  { unfold can_convert.
    destruct (find_quantities_by_unit um (Some u1)) as [l1|e1] eqn:H1;
      [|split; [done | by intros (? & ? & ? & _)]].
    destruct (find_quantities_by_unit um (Some u2)) as [l2|e2] eqn:H2;
      [|split; [done | by intros (? & ? & _ & ? & _)]].
    simpl. split.
    - intros [= Hany]. exists l1, l2. split; [done|]. split; [done|].
      apply any_entry_in_true in Hany as (e1 & e2 & Hin1 & Hin2 & His).
      exists e1. split; [done|].
      destruct e1 as [p|], e2 as [q|]; try done.
      apply Nat.eqb_eq in His.
      assert (p = q) as ->; [|done].
      apply (same_identity (quantities_ um)); try done.
      + by apply (find_quantities_by_unit_member um u1 l1).
      + by apply (find_quantities_by_unit_member um u2 l2).
    - intros (? & ? & [= <-] & [= <-] & e & Hin1 & Hin2). f_equal.
      apply any_entry_in_true. exists e, e. by rewrite entry_is_refl. }
  split; [done|]. split; [|split; [|split]].
  - intros [d Hd]. rewrite Hiff. split.
    + intros (l1 & l2 & H1 & H2 & [q|] & Hin1 & Hin2).
      * exists l1, l2. repeat split; try done. by exists q.
      * apply (find_quantities_by_unit_none um u1 l1 H1) in Hin1. congruence.
    + intros (l1 & l2 & H1 & H2 & q & Hin1 & Hin2).
      exists l1, l2. repeat split; try done. by exists (Some q).
  - intros l1 l2 H1 H2. unfold can_convert. rewrite H1, H2. by eexists.
  - unfold can_convert.
    destruct (find_quantities_by_unit um (Some u1)) as [l1|e1] eqn:H1;
      destruct (find_quantities_by_unit um (Some u2)) as [l2|e2] eqn:H2;
      simpl; try done.
    + by rewrite any_entry_in_sym.
    + apply find_quantities_by_unit_raise in H1, H2. congruence.
  - intros u. split; [done|]. by destruct u.
Qed.

(** The specification's sixth scenario. *)
Lemma can_convert_shared_quantity_witness :
  distinct_identities reference
  ∧ can_convert reference (Some mile_per_hour) (Some metre_per_second)
    = Ok true
  ∧ can_convert reference (Some metre_per_second) (Some mile_per_hour)
    = Ok true
  ∧ can_convert reference (Some mile_per_hour) (Some ohm_metre) ≠ Ok true.
Proof.
  assert (distinct_identities reference) as Hwf.
  { by apply (bool_decide_unpack _). }
  destruct (can_convert_shared_quantity reference mile_per_hour
              metre_per_second Hwf) as (Hiff & _ & _ & Hsym & _).
  destruct (can_convert_shared_quantity reference mile_per_hour
              ohm_metre Hwf) as (Hiff' & _).
  split; [done|].
  assert (can_convert reference (Some mile_per_hour) (Some metre_per_second)
          = Ok true) as Hyes.
  { apply Hiff. exists [Some speed_q], [Some speed_q].
    split; [by vm_compute|]. split; [by vm_compute|].
    exists (Some speed_q). split; by left. }
  split; [done|]. split; [by rewrite <- Hsym|].
  intros (l1 & l2 & H1 & H2 & e & He1 & He2)%Hiff'.
  assert (find_quantities_by_unit reference (Some mile_per_hour)
          = Ok [Some speed_q]) as E1 by (by vm_compute).
  assert (find_quantities_by_unit reference (Some ohm_metre)
          = Ok [Some resistivity_q]) as E2 by (by vm_compute).
  assert (l1 = [Some speed_q]) as -> by congruence.
  assert (l2 = [Some resistivity_q]) as -> by congruence.
  apply list_elem_of_singleton in He1, He2.
  assert (qid speed_q = qid resistivity_q) by congruence. discriminate.
Defined.

End quantities_of_a_unit.

(** ** find_convertible_units *)

Section convertible_units.

Lemma unit_eq_fields (u v : Unit) :
  unit_eq u v
  ↔ name_ u = name_ v ∧ symbol_ u = symbol_ v
    ∧ a_ u = a_ v ∧ b_ u = b_ v ∧ c_ u = c_ v ∧ d_ u = d_ v.
Proof.
  unfold unit_eq, Unit_eqb.
  rewrite !andb_true_iff, !String.eqb_eq, !bool_decide_eq_true. tauto.
Qed.

#[local] Instance unit_eq_equivalence : Equivalence unit_eq.
Proof.
  split.
  - intros u. by apply unit_eq_fields.
  - intros u v. rewrite !unit_eq_fields.
    intros (?&?&?&?&?&?). by repeat split.
  - intros u v w. rewrite !unit_eq_fields.
    intros (?&?&?&?&?&?) (?&?&?&?&?&?). repeat split; congruence.
Qed.

Lemma Unit_eqb_sym (u v : Unit) : Unit_eqb u v = Unit_eqb v u.
Proof.
  apply eq_true_iff_eq. fold (unit_eq u v) (unit_eq v u).
  split; intros H; by symmetry.
Qed.

Lemma existsb_InA (v : Unit) (l : list Unit) :
  existsb (Unit_eqb v) l = true ↔ InA unit_eq v l.
Proof.
  rewrite existsb_exists, InA_alt.
  split; intros (y & H1 & H2); exists y; by split.
Qed.

Lemma set_in_InA (v : Unit) (s : list Unit) :
  set_in v s = true ↔ InA unit_eq v s.
Proof. apply existsb_InA. Qed.

Lemma has_unit_InA (u : Unit) (q : Quantity) :
  has_unit u q = true ↔ InA unit_eq u (units_ q).
Proof.
  rewrite <- existsb_InA. unfold has_unit.
  induction (units_ q) as [|item l IH]; simpl; [done|].
  by rewrite !orb_true_iff, IH, Unit_eqb_sym.
Qed.

(** [set_add]: membership, absence of duplicates, provenance. *)
Lemma set_add_InA (s : list Unit) (u v : Unit) :
  InA unit_eq v (set_add s u) ↔ InA unit_eq v s ∨ unit_eq v u.
Proof.
  unfold set_add. destruct (set_in u s) eqn:Hin.
  - apply set_in_InA in Hin. split; [by left|].
    intros [H|H]; [done|]. by rewrite H.
  - rewrite InA_app_iff, InA_singleton. tauto.
Qed.

Lemma set_add_NoDupA (s : list Unit) (u : Unit) :
  NoDupA unit_eq s → NoDupA unit_eq (set_add s u).
Proof.
  intros Hs. unfold set_add. destruct (set_in u s) eqn:Hin; [done|].
  apply NoDupA_app; [apply _ | done | |].
  - constructor; [|constructor]. by intros H%InA_nil.
  - intros x Hx Hu%InA_singleton. rewrite Hu in Hx.
    apply set_in_InA in Hx. congruence.
Qed.

Lemma set_add_elem (s : list Unit) (u v : Unit) :
  v ∈ set_add s u → v ∈ s ∨ v = u.
Proof.
  unfold set_add. destruct (set_in u s); [by left|].
  intros [H|H%list_elem_of_singleton]%elem_of_app; tauto.
Qed.

(** [set_update] *)
Lemma set_update_InA (units s : list Unit) (v : Unit) :
  InA unit_eq v (set_update s units)
  ↔ InA unit_eq v s ∨ InA unit_eq v units.
Proof.
  unfold set_update. revert s.
  induction units as [|u units IH]; intros s; simpl.
  - rewrite InA_nil. tauto.
  - rewrite IH, set_add_InA, InA_cons. tauto.
Qed.

Lemma set_update_NoDupA (units s : list Unit) :
  NoDupA unit_eq s → NoDupA unit_eq (set_update s units).
Proof.
  unfold set_update. revert s.
  induction units as [|u units IH]; intros s Hs; simpl; [done|].
  by apply IH, set_add_NoDupA.
Qed.

Lemma set_update_elem (units s : list Unit) (v : Unit) :
  v ∈ set_update s units → v ∈ s ∨ v ∈ units.
Proof.
  unfold set_update. revert s.
  induction units as [|u units IH]; intros s; simpl; [by left|].
  intros [[H| ->]%set_add_elem|H]%IH.
  - by left.
  - right. by left.
  - right. by right.
Qed.

(** [set_discard] *)
Lemma set_discard_InA (s : list Unit) (u v : Unit) :
  InA unit_eq v (set_discard s u) ↔ InA unit_eq v s ∧ ¬ unit_eq v u.
Proof.
  unfold set_discard. rewrite filter_InA.
  - rewrite negb_true_iff. unfold unit_eq.
    destruct (Unit_eqb v u).
    + split; intros [_ H]; [done | by destruct H].
    + split; intros [H _]; by split.
  - intros x y Hxy. f_equal. apply eq_true_iff_eq.
    fold (unit_eq x u) (unit_eq y u). by rewrite Hxy.
Qed.

Lemma set_discard_NoDupA (s : list Unit) (u : Unit) :
  NoDupA unit_eq s → NoDupA unit_eq (set_discard s u).
Proof.
  unfold set_discard. induction 1 as [|x s Hx Hs IH]; simpl; [constructor|].
  destruct (negb (Unit_eqb x u)); [|done].
  constructor; [|done]. intros Hin. apply Hx.
  rewrite InA_alt in *. destruct Hin as (y & Hxy & Hy%filter_In).
  exists y. tauto.
Qed.

Lemma collect_InA (u : Unit) (qs : list Quantity) (s : list Unit) (v : Unit) :
  InA unit_eq v (collect u qs s)
  ↔ InA unit_eq v s
    ∨ ∃ q, q ∈ qs ∧ InA unit_eq u (units_ q) ∧ InA unit_eq v (units_ q).
Proof.
  unfold collect. revert s. induction qs as [|q qs IH]; intros s; simpl.
  - split; [by left|]. intros [H|(q & Hq & _)]; [done|].
    by apply elem_of_nil in Hq.
  - rewrite IH. destruct (has_unit u q) eqn:Hq.
    + apply has_unit_InA in Hq. rewrite set_update_InA. split.
      * intros [[H|H]|(q' & H1 & H2)]; [by left| |].
        -- right. exists q. split; [by left | done].
        -- right. exists q'. split; [by right | done].
      * intros [H|(q' & [-> | H1]%elem_of_cons & H2 & H3)].
        -- by left; left.
        -- by left; right.
        -- right. by exists q'.
    + split.
      * intros [H|(q' & H1 & H2)]; [by left|].
        right. exists q'. split; [by right | done].
      * intros [H|(q' & [-> | H1]%elem_of_cons & H2 & H3)]; [by left| |].
        -- apply has_unit_InA in H2. congruence.
        -- right. by exists q'.
Qed.

Lemma collect_NoDupA (u : Unit) (qs : list Quantity) (s : list Unit) :
  NoDupA unit_eq s → NoDupA unit_eq (collect u qs s).
Proof.
  unfold collect. revert s.
  induction qs as [|q qs IH]; intros s Hs; simpl; [done|].
  apply IH. destruct (has_unit u q); [|done]. by apply set_update_NoDupA.
Qed.

Lemma collect_elem (u : Unit) (qs : list Quantity) (s : list Unit) (v : Unit) :
  v ∈ collect u qs s →
  v ∈ s ∨ ∃ q, q ∈ qs ∧ InA unit_eq u (units_ q) ∧ v ∈ units_ q.
Proof.
  unfold collect. revert s. induction qs as [|q qs IH]; intros s; simpl.
  - by left.
  - intros [H|(q' & H1 & H2)]%IH.
    + destruct (has_unit u q) eqn:Hq; [|by left].
      apply has_unit_InA in Hq.
      apply set_update_elem in H as [H|H]; [by left|].
      right. exists q. split; [by left | done].
    + right. exists q'. split; [by right | done].
Qed.

(** C8.  For a present unit [u], [find_convertible_units] returns the
    member units of every quantity that contains [u], without two equal
    units and without any unit equal to [u]; every unit it returns is a
    member of such a quantity; it raises [ValueError] when [u] is [None].
    Two units are equal when name, symbol and the four coefficients are:
    the display symbol takes no part. *)
Theorem find_convertible_units_union (um : UnitManager) (u : Unit) :
  (∃ l, find_convertible_units um (Some u) = Ok l
        ∧ (∀ v, InA unit_eq v l
                ↔ (∃ q, q ∈ quantities_ um
                        ∧ InA unit_eq u (units_ q) ∧ InA unit_eq v (units_ q))
                  ∧ ¬ unit_eq v u)
        ∧ NoDupA unit_eq l
        ∧ (∀ v, v ∈ l →
                ∃ q, q ∈ quantities_ um
                     ∧ InA unit_eq u (units_ q) ∧ v ∈ units_ q))
  ∧ find_convertible_units um None = Raise ValueError
  ∧ (∀ v w, unit_eq v w
            ↔ name_ v = name_ w ∧ symbol_ v = symbol_ w
              ∧ a_ v = a_ w ∧ b_ v = b_ w ∧ c_ v = c_ w ∧ d_ v = d_ w).
Proof.
  split; [|split; [done | apply unit_eq_fields]].
  eexists. split; [reflexivity|].
  split; [|split].
  - intros v. rewrite set_discard_InA, collect_InA, InA_nil. tauto.
  - apply set_discard_NoDupA, collect_NoDupA. constructor.
  - intros v Hv. unfold set_discard in Hv.
    apply list_elem_of_In, filter_In in Hv as [Hv _].
    apply list_elem_of_In, collect_elem in Hv as [Hv|Hv]; [|done].
    by apply elem_of_nil in Hv.
Qed.

(** The specification's fifth scenario: the units convertible with
    [mi/h] include the metre per second, and not [mi/h] itself. *)
Lemma find_convertible_units_union_witness :
  ∃ l, find_convertible_units reference (Some mile_per_hour) = Ok l
       ∧ InA unit_eq metre_per_second l
       ∧ ¬ InA unit_eq mile_per_hour l.
Proof.
  destruct (find_convertible_units_union reference mile_per_hour)
    as ((l & Hl & Hiff & _) & _).
  exists l. split; [done|]. split.
  - apply Hiff. split; [|by vm_compute].
    exists speed_q. split; [apply list_elem_of_In; simpl; tauto|].
    split; apply existsb_InA; by vm_compute.
  - intros [_ Hne]%Hiff. by apply Hne.
Defined.

End convertible_units.

(** ** add_unit_alias *)

Section aliases.

Lemma lower_char_idem (c : ascii) :
  Str.lower_char (Str.lower_char c) = Str.lower_char c.
Proof. by destruct c as [[] [] [] [] [] [] [] []]. Qed.

Lemma lower_is_lower (s : string) : Str.is_lower (Str.lower s).
Proof.
  unfold Str.is_lower. induction s as [|c s IH]; simpl; [done|].
  by rewrite lower_char_idem, IH.
Qed.

(** What [add_unit_alias] does: it raises [ValueError] when either
    argument is [None]; otherwise the alias, lower-cased, maps to the
    symbol, the other keys keep their entries, and a table whose keys
    were lower-cased stays so.  A key that is not in the table has no
    entry. *)
Lemma add_unit_alias_lower (um : UnitManager) (alias symbol : string) :
  ∃ um', add_unit_alias um (Some alias) (Some symbol) = Ok um'
         ∧ quantities_ um' = quantities_ um
         ∧ unit_aliases_ um' !! Str.lower alias = Some symbol
         ∧ (∀ k, k ≠ Str.lower alias →
                 unit_aliases_ um' !! k = unit_aliases_ um !! k)
         ∧ ((∀ k, is_Some (unit_aliases_ um !! k) → Str.is_lower k) →
            ∀ k, is_Some (unit_aliases_ um' !! k) → Str.is_lower k).
Proof.
  eexists. split; [reflexivity|]. simpl. split; [done|].
  split; [apply lookup_insert_eq|]. split.
  - intros k Hk. by apply lookup_insert_ne.
  - intros Hlow k. destruct (decide (k = Str.lower alias)) as [->|Hk].
    + intros _. apply lower_is_lower.
    + rewrite lookup_insert_ne by done. apply Hlow.
Qed.

Lemma add_unit_alias_none (um : UnitManager) (x : option string) :
  add_unit_alias um None x = Raise ValueError
  ∧ add_unit_alias um x None = Raise ValueError.
Proof. split; [done|]. by destruct x. Qed.

(** C10.  [add_unit_alias] lower-cases the alias and does not trim it:
    the alias [" M "] is stored under the key [" m "], which is not a
    trimmed string, and which [find_unit] never looks up, since it trims
    the symbol it is given. *)
Theorem add_unit_alias_not_trimmed :
  ∃ um', add_unit_alias empty_manager (Some " M ") (Some "m") = Ok um'
         ∧ unit_aliases_ um' !! " m " = Some "m"
         ∧ ¬ Str.is_trimmed " m "
         ∧ Str.strip (Str.lower " M ") = "m"
         ∧ unit_aliases_ um' !! Str.strip (Str.lower " M ") = None.
Proof.
  eexists. split; [reflexivity|]. by vm_compute.
Qed.

End aliases.

(** * Further properties *)

(** ** The conversion formula: inverses, poles, degenerate units *)

Section conversion_algebra.
Local Open Scope Qc_scope.

Lemma to_base_exact_iff (ar : Arithmetic) (u : Unit) (x y : Qc) :
  is_exact ar →
  to_base u x = Ok y
  ↔ c_ u * x + d_ u ≠ 0 ∧ y = (a_ u * x + b_ u) / (c_ u * x + d_ u).
Proof.
  intros He. unfold to_base, py_mul, py_add, py_div. rewrite !He.
  destruct (decide (c_ u * x + d_ u = 0)) as [Hz|Hz].
  - split; [done | by intros [? _]].
  - split; [by intros [= <-] | by intros [_ ->]].
Qed.

Lemma from_base_exact_iff (ar : Arithmetic) (u : Unit) (x y : Qc) :
  is_exact ar →
  from_base u x = Ok y
  ↔ c_ u * x - a_ u ≠ 0 ∧ y = (b_ u - d_ u * x) / (c_ u * x - a_ u).
Proof.
  intros He. unfold from_base, py_mul, py_sub, py_div. rewrite !He.
  destruct (decide (c_ u * x - a_ u = 0)) as [Hz|Hz].
  - split; [done | by intros [? _]].
  - split; [by intros [= <-] | by intros [_ ->]].
Qed.

Lemma to_base_exact_raises (ar : Arithmetic) (u : Unit) (x : Qc) :
  is_exact ar → raises (to_base u x) ↔ c_ u * x + d_ u = 0.
Proof.
  intros He. unfold to_base. rewrite py_div_raises.
  unfold py_mul, py_add. by rewrite !He.
Qed.

Lemma from_base_exact_raises (ar : Arithmetic) (u : Unit) (x : Qc) :
  is_exact ar → raises (from_base u x) ↔ c_ u * x - a_ u = 0.
Proof.
  intros He. unfold from_base. rewrite py_div_raises.
  unfold py_mul, py_sub. by rewrite !He.
Qed.

(** Over exact arithmetic, for a unit whose determinant is not zero,
    [to_base] sends [x] to [y] exactly when [from_base] sends [y] to
    [x]. *)
Lemma base_bijection (ar : Arithmetic) (u : Unit) (x y : Qc) :
  is_exact ar →
  determinant u ≠ 0 → to_base u x = Ok y ↔ from_base u y = Ok x.
Proof.
  intros He. rewrite (to_base_exact_iff ar), (from_base_exact_iff ar) by done.
  unfold determinant. intros Hdet. split.
  - intros [Hden ->].
    pose proof (inverse_denominator u x Hdet Hden) as Hden'.
    split; [done|]. field. split; [done|].
    intros H. apply Hdet.
    assert (a_ u * d_ u - b_ u * c_ u
            = - (c_ u * (a_ u * x + b_ u) - a_ u * (c_ u * x + d_ u)))
      as -> by ring.
    rewrite H. ring.
  - intros [Hden ->].
    assert (c_ u * (b_ u - d_ u * y) + d_ u * (c_ u * y - a_ u) ≠ 0) as Hnum.
    { intros H. apply Hdet.
      assert (a_ u * d_ u - b_ u * c_ u
              = - (c_ u * (b_ u - d_ u * y) + d_ u * (c_ u * y - a_ u)))
        as -> by ring.
      rewrite H. ring. }
    assert (c_ u * ((b_ u - d_ u * y) / (c_ u * y - a_ u)) + d_ u ≠ 0)
      as Hden'.
    { intros H. apply Hnum.
      assert (c_ u * (b_ u - d_ u * y) + d_ u * (c_ u * y - a_ u)
              = (c_ u * ((b_ u - d_ u * y) / (c_ u * y - a_ u)) + d_ u)
                * (c_ u * y - a_ u)) as -> by (by field).
      rewrite H. ring. }
    split; [done|]. field. by split.
Qed.

(** X1.  Over exact arithmetic (a number type whose operators do not
    round), on a unit with [a*d - b*c] not zero the two transforms are
    inverse to each other in both directions: [to_base(x)] is [y] exactly
    when [from_base(y)] is [x]; so [to_base(from_base(y))] is [y] whenever
    [from_base(y)] is a number, and [to_base] sends two values to the same
    base value only if they are equal. *)
Theorem transforms_are_mutual_inverses (ar : Arithmetic) (u : Unit) :
  is_exact ar →
  determinant u ≠ 0 →
  (∀ x y, to_base u x = Ok y ↔ from_base u y = Ok x)
  ∧ (∀ y, ¬ raises (from_base u y) → (from_base u y ≫= to_base u) = Ok y)
  ∧ (∀ x x' y, to_base u x = Ok y → to_base u x' = Ok y → x = x').
Proof.
  intros He Hdet. split; [|split].
  - intros x y. by apply base_bijection.
  - intros y Hy. destruct (from_base u y) as [x|] eqn:Hx; [|done].
    simpl. by apply base_bijection.
  - intros x x' y Hx Hx'.
    apply (base_bijection ar) in Hx, Hx'; try done. congruence.
Qed.

Lemma transforms_are_mutual_inverses_witness :
  (@from_base fraction reciprocal (dec 4 1) ≫= @to_base fraction reciprocal)
  = Ok (dec 4 1).
Proof.
  assert (determinant reciprocal ≠ 0) as Hdet
    by (apply (bool_decide_unpack _); by vm_compute).
  destruct (transforms_are_mutual_inverses fraction reciprocal
              fraction_exact Hdet) as (_ & H & _).
  apply H. rewrite (from_base_exact_raises fraction) by apply fraction_exact.
  apply (bool_decide_unpack _). by vm_compute.
Defined.

Lemma convert_units `{Arithmetic} (um : UnitManager) (from to : unit_arg)
    (x y : Qc) :
  convert um from to x = Ok y →
  ∃ f t b, resolve um from = Some f ∧ resolve um to = Some t
           ∧ to_base f x = Ok b ∧ from_base t b = Ok y.
Proof.
  unfold convert.
  destruct (resolve um from) as [f|]; [|done].
  destruct (resolve um to) as [t|]; [|done].
  destruct (to_base f x) as [b|] eqn:Hb; [|done]. simpl. intros Hy.
  by exists f, t, b.
Qed.

(** X2.  Over exact arithmetic, conversions chain: when
    [convert(from, via, x)] is [y] and the unit [via] has a determinant
    that is not zero, converting [y] on from [via] to any [to] is
    converting [x] from [from] to [to], result or exception alike. *)
Theorem convert_chain (ar : Arithmetic) (um : UnitManager)
    (from via to : unit_arg) (v : Unit) (x y : Qc) :
  is_exact ar →
  resolve um via = Some v →
  determinant v ≠ 0 →
  convert um from via x = Ok y →
  convert um via to y = convert um from to x.
Proof.
  intros He Hv Hdet Hxy.
  apply convert_units in Hxy as (f & t & b & Hf & Ht & Hb & Hy).
  assert (t = v) as -> by congruence.
  apply (base_bijection ar) in Hy; [|done..].
  unfold convert. rewrite Hv, Hf.
  destruct (resolve um to) as [w|]; [|done]. by rewrite Hy, Hb.
Qed.

Lemma convert_chain_witness :
  @convert fraction reference (ArgStr "km/h") (ArgStr "m/s")
           (dec 8851392 100000)
  = @convert fraction reference (ArgStr "mi/h") (ArgStr "m/s") (dec 55 1).
Proof.
  apply (convert_chain fraction reference (ArgStr "mi/h") (ArgStr "km/h")
           (ArgStr "m/s") kilometre_per_hour).
  - apply fraction_exact.
  - by vm_compute.
  - apply (bool_decide_unpack _). by vm_compute.
  - apply (bool_decide_unpack _). by vm_compute.
Defined.

(** X3.  Over exact arithmetic, there and back: when both units have a
    determinant that is not zero and [convert(u, v, x)] is [y],
    [convert(v, u, y)] is [x]. *)
Theorem convert_there_and_back (ar : Arithmetic) (um : UnitManager)
    (u v : Unit) (x y : Qc) :
  is_exact ar →
  determinant u ≠ 0 →
  determinant v ≠ 0 →
  convert um (ArgUnit (Some u)) (ArgUnit (Some v)) x = Ok y →
  convert um (ArgUnit (Some v)) (ArgUnit (Some u)) y = Ok x.
Proof.
  intros He Hu Hv Hxy.
  apply convert_units in Hxy as (f & t & b & [= <-] & [= <-] & Hb & Hy).
  apply (base_bijection ar) in Hy; [|done..].
  apply (base_bijection ar) in Hb; [|done..].
  unfold convert. simpl. by rewrite Hy.
Qed.

Lemma convert_there_and_back_witness :
  @convert fraction reference (ArgUnit (Some kilometre_per_hour))
           (ArgUnit (Some mile_per_hour)) (dec 8851392 100000)
  = Ok (dec 55 1).
Proof.
  apply convert_there_and_back; [apply fraction_exact | ..];
    apply (bool_decide_unpack _); by vm_compute.
Defined.

(** X4.  Over exact arithmetic, where the transforms raise.  A unit with
    [c = 0] raises in [to_base] on every value when [d = 0] and on none
    otherwise, and in [from_base] on every value when [a = 0] and on none
    otherwise.  A unit with [c] not zero raises on exactly one value:
    [-d/c] in [to_base], [a/c] in [from_base]. *)
Theorem transform_poles (ar : Arithmetic) (u : Unit) (x : Qc) :
  is_exact ar →
  (c_ u = 0 → (raises (to_base u x) ↔ d_ u = 0)
              ∧ (raises (from_base u x) ↔ a_ u = 0))
  ∧ (c_ u ≠ 0 → (raises (to_base u x) ↔ x = - d_ u / c_ u)
                ∧ (raises (from_base u x) ↔ x = a_ u / c_ u)).
Proof.
  intros He.
  rewrite (to_base_exact_raises ar), (from_base_exact_raises ar) by done.
  split.
  - intros ->. split; split; intros H.
    + rewrite <- H. ring.
    + rewrite H. ring.
    + assert (a_ u = - (0 * x - a_ u)) as -> by ring. rewrite H. ring.
    + rewrite H. ring.
  - intros Hc. split; split; intros H.
    + assert (x = (c_ u * x + d_ u - d_ u) / c_ u) as -> by (by field).
      rewrite H. by field.
    + rewrite H. by field.
    + assert (x = (c_ u * x - a_ u + a_ u) / c_ u) as -> by (by field).
      rewrite H. by field.
    + rewrite H. by field.
Qed.

Lemma transform_poles_witness :
  raises (@to_base fraction reciprocal 0)
  ∧ ¬ raises (@to_base fraction metre 0).
Proof.
  destruct (transform_poles fraction reciprocal 0 fraction_exact)
    as [_ Hrec].
  destruct (transform_poles fraction metre 0 fraction_exact) as [Hlin _].
  split.
  - apply Hrec; apply (bool_decide_unpack _); by vm_compute.
  - intros H. apply Hlin in H; [|reflexivity]. by vm_compute in H.
Defined.

(** X5.  Over exact arithmetic, a unit with [a*d - b*c = 0] is
    degenerate: [to_base] returns the same base value for every value on
    which it returns one. *)
Theorem degenerate_unit_is_constant (ar : Arithmetic) (u : Unit)
    (x x' y y' : Qc) :
  is_exact ar →
  determinant u = 0 →
  to_base u x = Ok y → to_base u x' = Ok y' → y = y'.
Proof.
  intros He. rewrite !(to_base_exact_iff ar) by done. unfold determinant.
  intros Hdet [Hden ->] [Hden' ->].
  assert ((a_ u * x + b_ u) / (c_ u * x + d_ u)
          - (a_ u * x' + b_ u) / (c_ u * x' + d_ u)
          = (a_ u * d_ u - b_ u * c_ u) * (x - x')
            / ((c_ u * x + d_ u) * (c_ u * x' + d_ u))) as H by (by field).
  rewrite Hdet in H.
  assert (0 * (x - x') / ((c_ u * x + d_ u) * (c_ u * x' + d_ u)) = 0) as H0.
  { field. by split. }
  rewrite H0 in H.
  assert (∀ p q : Qc, p - q = 0 → p = q) as Hsub.
  { intros p q E. assert (p = p - q + q) as -> by ring. rewrite E. ring. }
  by apply Hsub.
Qed.

Lemma degenerate_unit_is_constant_witness :
  ∃ y y', @to_base fraction flat 0 = Ok y
          ∧ @to_base fraction flat 1 = Ok y' ∧ y = y'.
Proof.
  assert (@to_base fraction flat 0 = Ok (dec 2 1)) as H0
    by (apply (bool_decide_unpack _); by vm_compute).
  assert (@to_base fraction flat 1 = Ok (dec 2 1)) as H1
    by (apply (bool_decide_unpack _); by vm_compute).
  exists (dec 2 1), (dec 2 1). split; [done|]. split; [done|].
  apply (degenerate_unit_is_constant fraction flat 0 1);
    [apply fraction_exact | | done..].
  by apply Qc_by_compute.
Defined.

End conversion_algebra.

(** ** The registry of quantities: lookup and insertion *)

Section registry.

Lemma first_quantity_none (n : string) (qs : list Quantity) :
  first_quantity n qs = None ↔ ∀ q, q ∈ qs → qname_ q ≠ n.
Proof.
  induction qs as [|q' qs IH]; simpl.
  - split; [|done]. intros _ q Hq. by apply elem_of_nil in Hq.
  - destruct (String.eqb (qname_ q') n) eqn:Hn.
    + apply String.eqb_eq in Hn. split; [done|].
      intros H. destruct (H q'); [by left | done].
    + apply String.eqb_neq in Hn. rewrite IH. split.
      * intros H q [-> | Hq]%elem_of_cons; [done | by apply H].
      * intros H q Hq. apply H. by right.
Qed.

Lemma first_quantity_unique (qs : list Quantity) (q : Quantity) :
  NoDup (map qname_ qs) → q ∈ qs → first_quantity (qname_ q) qs = Some q.
Proof.
  induction qs as [|q' qs IH]; simpl; intros Hnd Hq.
  - by apply elem_of_nil in Hq.
  - apply NoDup_cons in Hnd as [Hq' Hnd].
    apply elem_of_cons in Hq as [-> | Hq].
    + by rewrite String.eqb_refl.
    + destruct (String.eqb (qname_ q') (qname_ q)) eqn:Hn; [|by apply IH].
      apply String.eqb_eq in Hn. exfalso. apply Hq'. rewrite Hn.
      by apply list_elem_of_fmap_2.
Qed.

(** With unique names the lookup does not depend on the order in which
    the set of quantities is iterated. *)
Lemma first_quantity_perm (n : string) (qs qs' : list Quantity) :
  NoDup (map qname_ qs) → qs ≡ₚ qs' →
  first_quantity n qs' = first_quantity n qs.
Proof.
  intros Hnd Hp.
  assert (NoDup (map qname_ qs')) as Hnd'.
  { assert (map qname_ qs ≡ₚ map qname_ qs') as Hm by (by apply Permutation_map).
    by rewrite <- Hm. }
  destruct (first_quantity n qs) as [q|] eqn:Hq.
  - apply first_quantity_member in Hq as [Hq <-].
    apply first_quantity_unique; [done|]. by rewrite <- Hp.
  - apply first_quantity_none. intros q Hq'.
    rewrite first_quantity_none in Hq. apply Hq. by rewrite Hp.
Qed.

Lemma first_quantity_app (n : string) (qs qs' : list Quantity) :
  first_quantity n (qs ++ qs')
  = match first_quantity n qs with
    | Some q => Some q
    | None => first_quantity n qs'
    end.
Proof.
  induction qs as [|q qs IH]; simpl; [done|].
  by destruct (String.eqb (qname_ q) n).
Qed.

Lemma set_add_object_new (q : Quantity) (qs : list Quantity) :
  qid q ∉ map qid qs → set_add_object q qs = qs ++ [q].
Proof.
  intros Hid. unfold set_add_object.
  destruct (existsb _ qs) eqn:Hex; [|done].
  apply existsb_exists in Hex as (q' & Hq' & Heq%Nat.eqb_eq).
  exfalso. apply Hid. rewrite <- Heq.
  apply list_elem_of_fmap_2. by apply list_elem_of_In.
Qed.

(** X6.  [find_quantity] looks a quantity up by its exact name: what it
    returns is a quantity of the registry with that name, and it returns
    [None] exactly when no quantity has the name.  When the names are
    unique, every quantity of the registry is found under its name, and
    the result does not depend on the order of the set. *)
Theorem find_quantity_lookup (um : UnitManager) (n : string) :
  (∀ q, find_quantity um (Some n) = Ok (Some q) →
        q ∈ quantities_ um ∧ qname_ q = n)
  ∧ (find_quantity um (Some n) = Ok None
     ↔ ∀ q, q ∈ quantities_ um → qname_ q ≠ n)
  ∧ (unique_names um →
     (∀ q, q ∈ quantities_ um → find_quantity um (Some (qname_ q)) = Ok (Some q))
     ∧ (∀ um', same_registry um um' →
               find_quantity um' (Some n) = find_quantity um (Some n))).
Proof.
  unfold find_quantity. split; [|split; [|split]].
  - intros q [= Hq]. by apply first_quantity_member.
  - rewrite <- first_quantity_none. split; [by intros [= ->] | by intros ->].
  - intros q Hq. f_equal. by apply first_quantity_unique.
  - intros um' [_ Hp]. f_equal. by apply first_quantity_perm.
Qed.

Lemma find_quantity_lookup_witness :
  find_quantity reference (Some (qname_ speed_q)) = Ok (Some speed_q)
  ∧ find_quantity reference (Some "Length") = Ok None.
Proof.
  destruct (find_quantity_lookup reference "Length") as (_ & Hnone & Huniq).
  split.
  - apply Huniq; [by apply (bool_decide_unpack _)|].
    apply list_elem_of_In. simpl. tauto.
  - apply Hnone. intros q Hq.
    repeat (apply elem_of_cons in Hq as [-> | Hq]; [done|]).
    by apply elem_of_nil in Hq.
Defined.

(** X7.  [add_quantity] raises [ValueError] on [None] and on a quantity
    whose name is taken.  Otherwise, for a quantity object that is not in
    the registry, it returns a registry in which, whatever the order of
    the set: the new quantity is found under its name, every other name
    is looked up as before, the aliases are the same, and names and
    identities stay unique. *)
Theorem add_quantity_registers (um : UnitManager) (q : Quantity) :
  add_quantity um None = Raise ValueError
  ∧ ((∃ q', q' ∈ quantities_ um ∧ qname_ q' = qname_ q) →
     add_quantity um (Some q) = Raise ValueError)
  ∧ ((∀ q', q' ∈ quantities_ um → qname_ q' ≠ qname_ q) →
     qid q ∉ map qid (quantities_ um) →
     unique_names um →
     ∃ um', add_quantity um (Some q) = Ok um'
            ∧ ∀ um'', same_registry um' um'' →
                find_quantity um'' (Some (qname_ q)) = Ok (Some q)
                ∧ (∀ n, n ≠ qname_ q →
                        find_quantity um'' (Some n) = find_quantity um (Some n))
                ∧ unit_aliases_ um'' = unit_aliases_ um
                ∧ unique_names um''
                ∧ (distinct_identities um → distinct_identities um'')).
Proof.
  split; [done|]. split.
  - intros (q' & Hq' & Hn). unfold add_quantity. simpl.
    destruct (first_quantity (qname_ q) (quantities_ um)) eqn:Hf; [done|].
    rewrite first_quantity_none in Hf. by destruct (Hf q' Hq').
  - intros Hfree Hid Huniq. apply first_quantity_none in Hfree.
    eexists. split.
    { unfold add_quantity. simpl. rewrite Hfree.
      by rewrite set_add_object_new. }
    intros um'' [Hal Hp]. simpl in Hal, Hp.
    assert (NoDup (map qname_ (quantities_ um ++ [q]))) as Hnd.
    { rewrite map_app. apply NoDup_app. split; [done|]. split.
      - intros n Hn [->| []%elem_of_nil]%elem_of_cons.
        apply list_elem_of_fmap in Hn as (q' & Hn & Hq').
        rewrite first_quantity_none in Hfree. by destruct (Hfree q' Hq').
      - apply NoDup_singleton. }
    unfold find_quantity. split; [|split; [|split; [|split]]].
    + f_equal. rewrite (first_quantity_perm _ _ _ Hnd Hp).
      rewrite first_quantity_app, Hfree. simpl. by rewrite String.eqb_refl.
    + intros n Hn. f_equal. rewrite (first_quantity_perm _ _ _ Hnd Hp).
      rewrite first_quantity_app. simpl.
      destruct (String.eqb (qname_ q) n) eqn:Heq.
      * apply String.eqb_eq in Heq. congruence.
      * by destruct (first_quantity n (quantities_ um)).
    + done.
    + unfold unique_names.
      assert (map qname_ (quantities_ um ++ [q]) ≡ₚ map qname_ (quantities_ um''))
        as Hm by (by apply Permutation_map).
      by rewrite <- Hm.
    + unfold distinct_identities. intros Hd.
      assert (map qid (quantities_ um ++ [q]) ≡ₚ map qid (quantities_ um''))
        as Hm by (by apply Permutation_map).
      rewrite <- Hm, map_app. apply NoDup_app. split; [done|]. split.
      * by intros i Hi [->| []%elem_of_nil]%elem_of_cons.
      * apply NoDup_singleton.
Qed.

Lemma add_quantity_registers_witness :
  add_quantity lengths_only (Some (mkQuantity 9 "length" [])) = Raise ValueError
  ∧ ∃ um', add_quantity lengths_only (Some speed_q) = Ok um'
           ∧ find_quantity um' (Some "length per time") = Ok (Some speed_q).
Proof.
  split.
  - apply (add_quantity_registers lengths_only (mkQuantity 9 "length" [])).
    exists length_q. split; [by left | done].
  - destruct (add_quantity_registers lengths_only speed_q)
      as (_ & _ & (um' & Hadd & Hprop)).
    + intros q' [-> | []%elem_of_nil]%elem_of_cons. done.
    + by apply (bool_decide_unpack _).
    + by apply (bool_decide_unpack _).
    + exists um'. split; [done|]. by apply (Hprop um').
Defined.

(** X8.  [find_or_create_quantity] returns a quantity with the given
    name that [find_quantity] finds afterwards, leaves the registry as it
    is when the name is there, and otherwise adds a new quantity without
    units; it never removes a quantity, a second call returns the same
    quantity and changes nothing, and names and identities stay unique. *)
Theorem find_or_create_quantity_finds (um : UnitManager) (n : string)
    (new_id : nat) :
  new_id ∉ map qid (quantities_ um) →
  ∃ q um',
    find_or_create_quantity um n new_id = Ok (q, um')
    ∧ qname_ q = n
    ∧ find_quantity um' (Some n) = Ok (Some q)
    ∧ (∀ q', q' ∈ quantities_ um → q' ∈ quantities_ um')
    ∧ (is_Some (first_quantity n (quantities_ um)) → um' = um)
    ∧ (first_quantity n (quantities_ um) = None →
       q = mkQuantity new_id n []
       ∧ quantities_ um' ≡ₚ q :: quantities_ um
       ∧ unit_aliases_ um' = unit_aliases_ um)
    ∧ (∀ id', find_or_create_quantity um' n id' = Ok (q, um'))
    ∧ (unique_names um → unique_names um')
    ∧ (distinct_identities um → distinct_identities um').
Proof.
  intros Hid. unfold find_or_create_quantity, find_quantity. simpl.
  destruct (first_quantity n (quantities_ um)) as [q|] eqn:Hq.
  - exists q, um. apply first_quantity_member in Hq as Hq'.
    destruct Hq' as [Hin Hn]. rewrite Hq.
    split; [done|]. split; [done|]. split; [done|]. split; [done|].
    split; [done|]. split; [done|]. split; [done|]. by split.
  - rewrite (set_add_object_new (mkQuantity new_id n [])) by done.
    eexists _, _. split; [reflexivity|]. simpl.
    assert (first_quantity n (quantities_ um ++ [mkQuantity new_id n []])
            = Some (mkQuantity new_id n [])) as Hnew.
    { rewrite first_quantity_app, Hq. simpl. by rewrite String.eqb_refl. }
    rewrite Hnew. split; [done|]. split; [done|].
    split; [|split; [|split; [|split; [|split]]]].
    + intros q' Hq'. apply elem_of_app. by left.
    + by intros [? [=]].
    + intros _. split; [done|]. split; [|done].
      by rewrite Permutation_app_comm.
    + done.
    + unfold unique_names. simpl. intros Hnd.
      rewrite map_app. apply NoDup_app. split; [done|]. split.
      * intros n' Hn [->| []%elem_of_nil]%elem_of_cons.
        apply list_elem_of_fmap in Hn as (q' & Hn & Hq').
        rewrite first_quantity_none in Hq. by destruct (Hq q' Hq').
      * apply NoDup_singleton.
    + unfold distinct_identities. simpl. intros Hnd.
      rewrite map_app. apply NoDup_app. split; [done|]. split.
      * by intros i Hi [->| []%elem_of_nil]%elem_of_cons.
      * apply NoDup_singleton.
Qed.

Lemma find_or_create_quantity_finds_witness :
  ∃ q um', find_or_create_quantity lengths_only "area" 2 = Ok (q, um')
           ∧ find_quantity um' (Some "area") = Ok (Some q)
           ∧ ∀ id', find_or_create_quantity um' "area" id' = Ok (q, um').
Proof.
  destruct (find_or_create_quantity_finds lengths_only "area" 2)
    as (q & um' & Hc & _ & Hf & _ & _ & _ & Hagain & _).
  - by apply (bool_decide_unpack _).
  - by exists q, um'.
Defined.

Lemma add_units_back (q : Quantity) (us : list Unit) :
  units_ (foldl (λ q u, add_unit q u false) q us) = units_ q ++ us
  ∧ qid (foldl (λ q u, add_unit q u false) q us) = qid q
  ∧ qname_ (foldl (λ q u, add_unit q u false) q us) = qname_ q.
Proof.
  revert q. induction us as [|u us IH]; intros q.
  - simpl. by rewrite app_nil_r.
  - destruct (IH (add_unit q u false)) as (H1 & H2 & H3).
    cbn [foldl]. rewrite H1, H2, H3. simpl. by rewrite <- app_assoc.
Qed.

(** X9.  Units added with [add_unit(unit, False)], as the loader adds
    them, are kept in the order of the calls after those that were there,
    duplicates included: the base unit of a quantity that has units does
    not change, and the base unit of a quantity that had none is the
    first unit added.  Only [add_unit(unit, True)] replaces the base
    unit. *)
Theorem base_unit_after_add_unit (q : Quantity) (us : list Unit) (u : Unit) :
  units_ (foldl (λ q u, add_unit q u false) q us) = units_ q ++ us
  ∧ base_unit (foldl (λ q u, add_unit q u false) q us)
    = match base_unit q with
      | Some b => Some b
      | None => head us
      end
  ∧ base_unit (add_unit q u true) = Some u
  ∧ units_ (add_unit q u true) = u :: units_ q.
Proof.
  destruct (add_units_back q us) as (Hunits & _ & _).
  split; [done|]. split; [|done].
  unfold base_unit. rewrite Hunits. by destruct (units_ q).
Qed.

End registry.

(** ** get_units: one unit for each name *)

Section units_by_name.

Lemma get_units_flat (um : UnitManager) :
  get_units um = map snd (foldl dict_step [] (member_units um)).
Proof.
  unfold get_units, member_units. f_equal.
  generalize (@nil (string * Unit)).
  induction (quantities_ um) as [|q qs IH]; intros d; simpl; [done|].
  rewrite foldl_app. apply IH.
Qed.

Lemma dict_set_new (d : list (string * Unit)) (k : string) (v : Unit) :
  k ∉ map fst d → dict_set d k v = d ++ [(k, v)].
Proof.
  induction d as [|[k' v'] d IH]; simpl; intros Hk; [done|].
  apply not_elem_of_cons in Hk as [Hne Hk].
  destruct (String.eqb k' k) eqn:Heq.
  - apply String.eqb_eq in Heq. congruence.
  - by rewrite IH.
Qed.

Lemma dict_set_old (d : list (string * Unit)) (k : string) (v : Unit) :
  k ∈ map fst d → map fst (dict_set d k v) = map fst d.
Proof.
  induction d as [|[k' v'] d IH]; simpl; intros Hk.
  - by apply elem_of_nil in Hk.
  - destruct (String.eqb k' k) eqn:Heq; [done|].
    apply String.eqb_neq in Heq. simpl. f_equal. apply IH.
    apply elem_of_cons in Hk as [->|]; done.
Qed.

Lemma dict_set_keys (d : list (string * Unit)) (k : string) (v : Unit) :
  map fst (dict_set d k v)
  = if decide (k ∈ map fst d) then map fst d else map fst d ++ [k].
Proof.
  case_decide as Hk.
  - by apply dict_set_old.
  - rewrite dict_set_new by done. by rewrite map_app.
Qed.

Lemma dict_set_item (d : list (string * Unit)) (k k' : string) (v v' : Unit) :
  NoDup (map fst d) →
  (k', v') ∈ dict_set d k v →
  (k', v') = (k, v) ∨ ((k', v') ∈ d ∧ k' ≠ k).
Proof.
  induction d as [|[k0 v0] d IH]; simpl; intros Hnd Hin.
  - apply list_elem_of_singleton in Hin. by left.
  - apply NoDup_cons in Hnd as [Hk0 Hnd].
    destruct (String.eqb k0 k) eqn:Heq.
    + apply String.eqb_eq in Heq as ->.
      apply elem_of_cons in Hin as [Hin|Hin]; [by left|].
      right. split; [by right|]. intros ->. apply Hk0.
      by apply (list_elem_of_fmap_2 fst) in Hin.
    + apply String.eqb_neq in Heq.
      apply elem_of_cons in Hin as [[= -> ->]|Hin].
      * right. split; [by left | done].
      * destruct (IH Hnd Hin) as [|[? ?]]; [by left|].
        right. split; [by right | done].
Qed.

Lemma dict_inv_step (p : list Unit) (d : list (string * Unit)) (u : Unit) :
  dict_inv p d → dict_inv (p ++ [u]) (dict_step d u).
Proof.
  intros (Hnd & Hitems & Hkeys). unfold dict_step. split; [|split].
  - rewrite dict_set_keys. case_decide as Hn; [done|].
    apply NoDup_app. split; [done|]. split; [|apply NoDup_singleton].
    by intros k Hk ->%list_elem_of_singleton.
  - intros k v Hin.
    destruct (dict_set_item _ _ _ _ _ Hnd Hin) as [[= -> ->]|[Hin' Hne]].
    + split; [done|]. exists p, []. split; [done|]. apply not_elem_of_nil.
    + destruct (Hitems k v Hin') as (Hname & l1 & l2 & -> & Hl2).
      split; [done|]. exists l1, (l2 ++ [u]).
      split; [by rewrite <- app_assoc|].
      rewrite map_app. intros [?|Hu%list_elem_of_singleton]%elem_of_app; done.
  - intros u' Hu'. rewrite dict_set_keys.
    apply elem_of_app in Hu' as [Hu'|Hu'].
    + case_decide; [by apply Hkeys|]. apply elem_of_app. left. by apply Hkeys.
    + apply list_elem_of_singleton in Hu' as ->.
      case_decide; [done|]. apply elem_of_app. right. by left.
Qed.

Lemma dict_inv_fold (l p : list Unit) (d : list (string * Unit)) :
  dict_inv p d → dict_inv (p ++ l) (foldl dict_step d l).
Proof.
  revert p d. induction l as [|u l IH]; intros p d Hinv; simpl.
  - by rewrite app_nil_r.
  - replace (p ++ u :: l) with ((p ++ [u]) ++ l) by (by rewrite <- app_assoc).
    by apply IH, dict_inv_step.
Qed.

Lemma dict_fold_distinct (l : list Unit) (d : list (string * Unit)) :
  NoDup (map name_ l) →
  (∀ u, u ∈ l → name_ u ∉ map fst d) →
  foldl dict_step d l = d ++ map (λ u, (name_ u, u)) l.
Proof.
  revert d. induction l as [|u l IH]; intros d Hnd Hnew; simpl.
  - by rewrite app_nil_r.
  - apply NoDup_cons in Hnd as [Hu Hnd].
    unfold dict_step at 2. rewrite dict_set_new by (apply Hnew; by left).
    rewrite IH; [by rewrite <- app_assoc | done |].
    intros u' Hu'. rewrite map_app.
    intros [Hin|Hin%list_elem_of_singleton]%elem_of_app.
    + apply (Hnew u'); [by right | done].
    + apply Hu. simpl in Hin. rewrite <- Hin. by apply list_elem_of_fmap_2.
Qed.

(** X10.  [get_units] returns one unit for each unit name of the
    registry: no two of the returned units have the same name, each is a
    member of a quantity, every member's name is the name of a returned
    unit, and of several members with one name the last one in the order
    of the loops is returned.  When all member units have different
    names, the result is the member units in that order. *)
Theorem get_units_one_per_name (um : UnitManager) :
  NoDup (map name_ (get_units um))
  ∧ (∀ u, u ∈ get_units um →
          ∃ l1 l2, member_units um = l1 ++ u :: l2
                   ∧ name_ u ∉ map name_ l2)
  ∧ (∀ u, u ∈ member_units um →
          ∃ v, v ∈ get_units um ∧ name_ v = name_ u)
  ∧ (NoDup (map name_ (member_units um)) → get_units um = member_units um).
Proof.
  rewrite get_units_flat.
  assert (dict_inv [] []) as H0.
  { split; [constructor|]. split; [|by intros u []%elem_of_nil].
    by intros k v []%elem_of_nil. }
  apply (dict_inv_fold (member_units um)) in H0. simpl in H0.
  destruct H0 as (Hnd & Hitems & Hkeys).
  set (d := foldl dict_step [] (member_units um)) in *.
  assert (map name_ (map snd d) = map fst d) as Hnames.
  { rewrite map_map. apply map_ext_in. intros [k v] Hin. simpl.
    by apply Hitems, list_elem_of_In. }
  split; [by rewrite Hnames|]. split; [|split].
  - intros u Hu. apply list_elem_of_fmap in Hu as ([k v] & -> & Hin).
    destruct (Hitems k v Hin) as (<- & Hlast). done.
  - intros u Hu. apply Hkeys in Hu.
    apply list_elem_of_fmap in Hu as ([k v] & Hk & Hin). simpl in Hk.
    exists v. split; [by apply (list_elem_of_fmap_2 snd) in Hin|].
    destruct (Hitems k v Hin) as (-> & _). done.
  - intros Hdistinct. unfold d.
    rewrite dict_fold_distinct; [|done|].
    + simpl. rewrite map_map. simpl. apply map_id.
    + intros u _. apply not_elem_of_nil.
Qed.

Lemma get_units_one_per_name_witness :
  get_units with_time = [hertz_period; euclid; second; percent].
Proof.
  destruct (get_units_one_per_name with_time) as (Hnd & Hlast & _).
  assert (get_units with_time = [hertz_period; euclid; second; percent]) as H
    by (by vm_compute).
  rewrite H in Hnd, Hlast. done.
Defined.

End units_by_name.

(** ** Strings: lower-casing and trimming *)

Section strings.

Lemma isspace_lower_char (c : ascii) :
  Str.isspace (Str.lower_char c) = Str.isspace c.
Proof. by destruct c as [[] [] [] [] [] [] [] []]. Qed.

Lemma lstrip_idem (s : string) : Str.lstrip (Str.lstrip s) = Str.lstrip s.
Proof.
  induction s as [|c s IH]; simpl; [done|].
  destruct (Str.isspace c) eqn:Hc; [done|]. simpl. by rewrite Hc.
Qed.

Lemma rstrip_idem (s : string) : Str.rstrip (Str.rstrip s) = Str.rstrip s.
Proof.
  induction s as [|c s IH]; simpl; [done|].
  destruct (Str.rstrip s) as [|c' r] eqn:Hr.
  - destruct (Str.isspace c) eqn:Hc; simpl; [done|]. by rewrite Hc.
  - change (Str.rstrip (String c (String c' r)))
      with (match Str.rstrip (String c' r) with
            | EmptyString =>
                if Str.isspace c then EmptyString else String c EmptyString
            | r' => String c r'
            end).
    by rewrite IH.
Qed.

Lemma rstrip_empty (s : string) :
  Str.rstrip s = "" ↔ Resolution.blank s = true.
Proof.
  induction s as [|c s IH]; simpl; [done|].
  destruct (Str.rstrip s) as [|c' r] eqn:Hr.
  - destruct (Str.isspace c); simpl; [|split; discriminate].
    rewrite <- IH. done.
  - split; [discriminate|]. intros [_ H]%andb_true_iff.
    apply IH in H. discriminate.
Qed.

Lemma lstrip_rstrip (s : string) :
  Str.lstrip (Str.rstrip s) = Str.rstrip (Str.lstrip s).
Proof.
  induction s as [|c s IH]; [done|].
  destruct (Str.isspace c) eqn:Hc.
  - change (Str.lstrip (String c s)) with
      (if Str.isspace c then Str.lstrip s else String c s).
    rewrite Hc, <- IH. simpl.
    destruct (Str.rstrip s) as [|c' r] eqn:Hr.
    + by rewrite Hc.
    + simpl. by rewrite Hc.
  - change (Str.lstrip (String c s)) with
      (if Str.isspace c then Str.lstrip s else String c s).
    rewrite Hc. simpl.
    destruct (Str.rstrip s) as [|c' r] eqn:Hr; rewrite ?Hc; simpl;
      by rewrite Hc.
Qed.

(** [strip] returns a trimmed string. *)
Lemma strip_is_trimmed (s : string) : Str.is_trimmed (Str.strip s).
Proof.
  unfold Str.is_trimmed, Str.strip.
  by rewrite lstrip_rstrip, lstrip_idem, rstrip_idem.
Qed.

Lemma lower_lstrip (s : string) :
  Str.lower (Str.lstrip s) = Str.lstrip (Str.lower s).
Proof.
  induction s as [|c s IH]; simpl; [done|].
  rewrite isspace_lower_char. by destruct (Str.isspace c).
Qed.

Lemma lower_rstrip (s : string) :
  Str.lower (Str.rstrip s) = Str.rstrip (Str.lower s).
Proof.
  induction s as [|c s IH]; simpl; [done|].
  rewrite <- IH, isspace_lower_char.
  destruct (Str.rstrip s); simpl; [|done]. by destruct (Str.isspace c).
Qed.

Lemma lower_strip (s : string) :
  Str.lower (Str.strip s) = Str.strip (Str.lower s).
Proof. unfold Str.strip. by rewrite lower_rstrip, lower_lstrip. Qed.

(** The key under which [find_unit] looks an alias up is lower-cased and
    trimmed. *)
Lemma lookup_key_normal (s : option string) :
  Str.is_lower (lookup_key s) ∧ Str.is_trimmed (lookup_key s).
Proof.
  unfold lookup_key. split; [|apply strip_is_trimmed].
  unfold Str.is_lower. rewrite lower_strip. f_equal. apply lower_is_lower.
Qed.

End strings.

(** ** find_unit: what it returns, and what its argument may vary in *)

Section find_unit_properties.

Lemma find_unit_search (um : UnitManager) (s : option string) :
  find_unit um s
  = search um (default (given_symbol s) (unit_aliases_ um !! lookup_key s))
           (lookup_key s).
Proof.
  unfold find_unit, search, member_units, lookup_key, given_symbol.
  rewrite !search_units_find. by destruct (unit_aliases_ um !! _).
Qed.

Lemma given_symbol_blank (s : string) :
  Resolution.blank s = true → given_symbol (Some s) = "unitless".
Proof.
  intros Hb. unfold given_symbol. by rewrite strip_eqb_empty, Hb.
Qed.

(** X11.  [find_unit] returns a member unit whose symbol is the symbol
    searched for (the alias target if the key is an alias, else the
    symbol given), or is the key once lower-cased; a member unit with
    exactly the symbol searched for makes it return a unit with exactly
    that symbol; and it returns [None] exactly when no member unit
    matches in either way. *)
Theorem find_unit_sound_complete (um : UnitManager) (s : option string) :
  let key := lookup_key s in
  let wanted := default (given_symbol s) (unit_aliases_ um !! key) in
  (∀ u, find_unit um s = Some u →
        u ∈ member_units um
        ∧ (symbol_ u = wanted ∨ Str.lower (symbol_ u) = key))
  ∧ (∀ u, u ∈ member_units um → symbol_ u = wanted →
          ∃ v, find_unit um s = Some v ∧ symbol_ v = wanted)
  ∧ (find_unit um s = None
     ↔ ∀ u, u ∈ member_units um →
            symbol_ u ≠ wanted ∧ Str.lower (symbol_ u) ≠ key).
Proof.
  intros key wanted. rewrite find_unit_search. fold key wanted.
  unfold search. split; [|split].
  - intros u Hu.
    destruct (List.find _ _) as [v|] eqn:Hexact.
    + injection Hu as ->. apply find_some in Hexact as [Hin Heq].
      split; [by apply list_elem_of_In|]. left. by apply String.eqb_eq.
    + apply find_some in Hu as [Hin Heq].
      split; [by apply list_elem_of_In|]. right. by apply String.eqb_eq.
  - intros u Hin Hsym.
    destruct (List.find _ _) as [v|] eqn:Hexact.
    + exists v. split; [done|].
      apply find_some in Hexact as [_ Heq]. by apply String.eqb_eq.
    + apply list_elem_of_In in Hin.
      pose proof (find_none _ _ Hexact u Hin) as H.
      by apply String.eqb_neq in H.
  - split.
    + intros Hnone u Hin.
      destruct (List.find _ _) as [v|] eqn:Hexact; [done|].
      apply list_elem_of_In in Hin.
      pose proof (find_none _ _ Hexact u Hin) as H1.
      pose proof (find_none _ _ Hnone u Hin) as H2.
      by apply String.eqb_neq in H1, H2.
    + intros Hno.
      destruct (List.find _ _) as [v|] eqn:Hexact.
      * apply find_some in Hexact as [Hin Heq].
        apply list_elem_of_In, Hno in Hin as [Hne _].
        by apply String.eqb_eq in Heq.
      * match goal with
        | |- ?f = None => destruct f as [v|] eqn:Hfold; [|done]
        end.
        apply find_some in Hfold as [Hin Heq].
        apply list_elem_of_In, Hno in Hin as [_ Hne].
        by apply String.eqb_eq in Heq.
Qed.

Lemma find_unit_sound_complete_witness :
  ∃ v, find_unit reference (Some " MPH ") = Some v ∧ symbol_ v = "mi/h".
Proof.
  destruct (find_unit_sound_complete reference (Some " MPH "))
    as (_ & Hexact & _).
  apply (Hexact mile_per_hour); [|by vm_compute].
  apply list_elem_of_In. vm_compute. tauto.
Defined.

(** X12.  What [find_unit] does not tell apart.  An absent symbol and a
    blank one are searched as [unitless].  Two symbols with the same
    lower-cased and trimmed form resolve to the same unit when that form
    is an alias, and also when neither (after the sentinel) is the exact
    symbol of a member unit. *)
Theorem find_unit_case_and_space (um : UnitManager) (s s' : option string) :
  (∀ b, Resolution.blank b = true →
        find_unit um (Some b) = find_unit um None
        ∧ find_unit um None = find_unit um (Some "unitless"))
  ∧ (lookup_key s = lookup_key s' →
     is_Some (unit_aliases_ um !! lookup_key s) →
     find_unit um s = find_unit um s')
  ∧ (lookup_key s = lookup_key s' →
     unit_aliases_ um !! lookup_key s = None →
     (∀ u, u ∈ member_units um →
           symbol_ u ≠ given_symbol s ∧ symbol_ u ≠ given_symbol s') →
     find_unit um s = find_unit um s').
Proof.
  split; [|split].
  - intros b Hb. rewrite !find_unit_search. unfold lookup_key.
    by rewrite (given_symbol_blank b Hb).
  - intros Hkey [a Ha]. rewrite !find_unit_search, <- Hkey, Ha. done.
  - intros Hkey Ha Hno. rewrite !find_unit_search, <- Hkey, Ha. simpl.
    unfold search.
    assert (∀ w, (∀ u, u ∈ member_units um → symbol_ u ≠ w) →
                 List.find (λ u, String.eqb (symbol_ u) w) (member_units um)
                 = None) as Hmiss.
    { intros w Hw. destruct (List.find _ _) as [v|] eqn:Hf; [|done].
      apply find_some in Hf as [Hin Heq%String.eqb_eq].
      by apply list_elem_of_In, Hw in Hin. }
    rewrite !Hmiss; [done | |]; intros u Hu; by apply Hno.
Qed.

Lemma find_unit_case_and_space_witness :
  find_unit reference (Some " MpH") = find_unit reference (Some "mph")
  ∧ find_unit reference (Some "KM/H ") = find_unit reference (Some " Km/h").
Proof.
  destruct (find_unit_case_and_space reference (Some " MpH") (Some "mph"))
    as (_ & Halias & _).
  destruct (find_unit_case_and_space reference (Some "KM/H ") (Some " Km/h"))
    as (_ & _ & Hfold).
  split.
  - apply Halias; [by vm_compute | vm_compute; by eexists].
  - apply Hfold; [by vm_compute | by vm_compute|].
    intros u Hu. apply (bool_decide_unpack _). revert u Hu.
    apply Forall_forall. by apply (bool_decide_unpack _).
Defined.

End find_unit_properties.

(** ** Aliases: what add_unit_alias gives to find_unit *)

Section alias_properties.

Lemma lower_length (s : string) : String.length (Str.lower s) = String.length s.
Proof. induction s as [|c s IH]; simpl; [done|]. by rewrite IH. Qed.

Lemma lstrip_length (s : string) :
  String.length (Str.lstrip s) ≤ String.length s.
Proof.
  induction s as [|c s IH]; simpl; [done|].
  destruct (Str.isspace c); simpl; lia.
Qed.

Lemma lstrip_full_length (s : string) :
  String.length (Str.lstrip s) = String.length s → Str.lstrip s = s.
Proof.
  destruct s as [|c s]; simpl; [done|].
  destruct (Str.isspace c); [|done].
  pose proof (lstrip_length s) as Hle. intros Heq. exfalso. lia.
Qed.

Lemma rstrip_length (s : string) :
  String.length (Str.rstrip s) ≤ String.length s.
Proof.
  induction s as [|c s IH]; simpl; [done|].
  destruct (Str.rstrip s); [destruct (Str.isspace c)|]; simpl in *; lia.
Qed.

Lemma rstrip_full_length (s : string) :
  String.length (Str.rstrip s) = String.length s → Str.rstrip s = s.
Proof.
  induction s as [|c s IH]; simpl; [done|].
  destruct (Str.rstrip s) as [|c' r] eqn:Hr.
  - destruct (Str.isspace c); simpl; [done|].
    destruct s; simpl; [done|]. intros H. exfalso. lia.
  - simpl. intros H. f_equal. apply IH. simpl. lia.
Qed.

Lemma strip_full_length (s : string) :
  String.length (Str.strip s) = String.length s → Str.strip s = s.
Proof.
  unfold Str.strip. intros H.
  pose proof (rstrip_length (Str.lstrip s)) as Hr.
  pose proof (lstrip_length s) as Hl.
  assert (Str.lstrip s = s) as Hs by (apply lstrip_full_length; lia).
  rewrite Hs in *. by apply rstrip_full_length.
Qed.

(** Lower-casing neither makes nor breaks a trimmed string. *)
Lemma lower_trimmed (s : string) :
  Str.is_trimmed (Str.lower s) ↔ Str.is_trimmed s.
Proof.
  unfold Str.is_trimmed. rewrite <- lower_strip. split.
  - intros H. apply strip_full_length.
    by rewrite <- (lower_length (Str.strip s)), H, lower_length.
  - by intros ->.
Qed.

(** X13.  Alias round trip, for an alias that is not blank and has no
    white space around it.  After [add_unit_alias(alias, symbol)], when
    some member unit has the symbol, every string [s] with
    [s.lower().strip() == alias.lower()] (the alias in any letter case,
    with any white space around it) resolves to the first member unit
    with that symbol; and the symbol itself, when it is not blank and its
    key is not an alias, resolves to the same unit.  (An alias with white
    space around it is never resolved.) *)
Theorem add_unit_alias_then_find (um : UnitManager) (alias symbol s : string)
    (u : Unit) :
  Str.is_trimmed alias →
  Resolution.blank alias = false →
  Str.strip (Str.lower s) = Str.lower alias →
  u ∈ member_units um →
  symbol_ u = symbol →
  ∃ um' v,
    add_unit_alias um (Some alias) (Some symbol) = Ok um'
    ∧ find_unit um' (Some s) = Some v
    ∧ symbol_ v = symbol
    ∧ List.find (λ u, String.eqb (symbol_ u) symbol) (member_units um) = Some v
    ∧ (Resolution.blank symbol = false →
       unit_aliases_ um' !! lookup_key (Some symbol) = None →
       find_unit um' (Some symbol) = Some v).
Proof.
  intros Htrim Hblank Hs Hu Hsym.
  assert (lookup_key (Some s) = Str.lower alias) as Hkey.
  { unfold lookup_key, given_symbol. rewrite strip_eqb_empty.
    destruct (Resolution.blank s) eqn:Hb; [|done]. exfalso.
    rewrite <- strip_eqb_empty in Hb. apply String.eqb_eq in Hb.
    rewrite <- lower_strip, Hb in Hs. simpl in Hs.
    assert (alias = "") as ->; [|done].
    pose proof (lower_length alias) as Hlen. rewrite <- Hs in Hlen.
    by destruct alias. }
  destruct (List.find (λ u, String.eqb (symbol_ u) symbol) (member_units um))
    as [v|] eqn:Hv.
  2:{ apply list_elem_of_In in Hu.
      pose proof (find_none _ _ Hv u Hu) as H. by apply String.eqb_neq in H. }
  eexists _, v. split; [reflexivity|].
  split; [|split; [|split; [done|]]].
  - rewrite find_unit_search, Hkey. simpl. rewrite lookup_insert_eq. simpl.
    unfold search, member_units in *. simpl. by rewrite Hv.
  - apply find_some in Hv as [_ Heq]. by apply String.eqb_eq.
  - intros Hb Hno. rewrite find_unit_search, Hno. simpl.
    unfold given_symbol. rewrite strip_eqb_empty, Hb.
    unfold search, member_units in *. simpl. by rewrite Hv.
Qed.

Lemma add_unit_alias_then_find_witness :
  ∃ um' v, add_unit_alias reference (Some "KPH") (Some "km/h") = Ok um'
           ∧ find_unit um' (Some " kph ") = Some v
           ∧ symbol_ v = "km/h".
Proof.
  destruct (add_unit_alias_then_find reference "KPH" "km/h" " kph "
              kilometre_per_hour)
    as (um' & v & Hadd & Hfind & Hsym & _).
  - by vm_compute.
  - done.
  - by vm_compute.
  - apply list_elem_of_In. vm_compute. tauto.
  - done.
  - by exists um', v.
Defined.

(** X14.  [find_unit] reads the alias table only at keys that are
    lower-cased and trimmed: an entry under any other key changes no
    result of [find_unit].  So an alias that [add_unit_alias] is given
    with white space around it is never resolved. *)
Theorem untrimmed_alias_is_dead (um : UnitManager) :
  (∀ k v s,
     ¬ (Str.is_lower k ∧ Str.is_trimmed k) →
     find_unit (mkUnitManager (<[k := v]> (unit_aliases_ um)) (quantities_ um)) s
     = find_unit um s)
  ∧ (∀ alias symbol um',
       add_unit_alias um (Some alias) (Some symbol) = Ok um' →
       ¬ Str.is_trimmed alias →
       ∀ s, find_unit um' s = find_unit um s).
Proof.
  assert (∀ k v s,
            ¬ (Str.is_lower k ∧ Str.is_trimmed k) →
            find_unit (mkUnitManager (<[k := v]> (unit_aliases_ um))
                                     (quantities_ um)) s
            = find_unit um s) as Hdead.
  { intros k v s Hk. rewrite !find_unit_search. simpl.
    rewrite lookup_insert_ne; [done|].
    intros ->. apply Hk. apply lookup_key_normal. }
  split; [done|].
  intros alias symbol um' [= <-] Htrim s. apply Hdead.
  intros [_ H]. by apply Htrim, lower_trimmed.
Qed.

Lemma untrimmed_alias_is_dead_witness :
  ∃ um', add_unit_alias reference (Some " kph ") (Some "km/h") = Ok um'
         ∧ find_unit um' (Some " kph ") = find_unit reference (Some " kph ")
         ∧ find_unit reference (Some " kph ") = None.
Proof.
  destruct (untrimmed_alias_is_dead reference) as [_ Hadd].
  eexists. split; [reflexivity|]. split; [|by vm_compute].
  apply (Hadd " kph " "km/h"); [done|]. by vm_compute.
Defined.

End alias_properties.

(** ** _load_unit_aliases: the lines of the alias file *)

Section alias_file.

Lemma str_contains_count (c : ascii) (s : string) :
  str_contains c s = true ↔ 0 < str_count c s.
Proof.
  induction s as [|c' s IH]; simpl; [split; [done | lia]|].
  destruct (Ascii.eqb c' c); simpl; [split; [lia | done]|]. apply IH.
Qed.

Lemma str_split_length (c : ascii) (s : string) :
  length (str_split c s) = S (str_count c s).
Proof.
  induction s as [|c' s IH]; simpl; [done|].
  destruct (Ascii.eqb c' c); simpl; [by rewrite IH|].
  destruct (str_split c s); simpl in *; [done | lia].
Qed.

Lemma lstrip_count (c : ascii) (s : string) :
  Str.isspace c = false → str_count c (Str.lstrip s) = str_count c s.
Proof.
  intros Hc. induction s as [|c' s IH]; simpl; [done|].
  destruct (Str.isspace c') eqn:Hc'; [|done].
  rewrite IH. destruct (Ascii.eqb c' c) eqn:Heq; [|done].
  apply Ascii.eqb_eq in Heq. congruence.
Qed.

Lemma rstrip_count (c : ascii) (s : string) :
  Str.isspace c = false → str_count c (Str.rstrip s) = str_count c s.
Proof.
  intros Hc. induction s as [|c' s IH]; simpl; [done|].
  destruct (Str.rstrip s) as [|c'' r] eqn:Hr.
  - rewrite <- IH. simpl.
    destruct (Str.isspace c') eqn:Hc'; simpl; [|lia].
    destruct (Ascii.eqb c' c) eqn:Heq; [|done].
    apply Ascii.eqb_eq in Heq. congruence.
  - rewrite <- IH. done.
Qed.

Lemma strip_count (c : ascii) (s : string) :
  Str.isspace c = false → str_count c (Str.strip s) = str_count c s.
Proof.
  intros Hc. unfold Str.strip. by rewrite rstrip_count, lstrip_count.
Qed.

Lemma load_alias_line_raises (aliases : gmap string string) (line : string) :
  raises (load_alias_line aliases line)
  ↔ str_startswith "#" line = false ∧ 2 ≤ str_count "=" line.
Proof.
  unfold load_alias_line.
  destruct (str_startswith "#" line); simpl; [split; [done | by intros [? _]]|].
  destruct (str_contains "=" line) eqn:Hc; simpl.
  - apply str_contains_count in Hc.
    pose proof (str_split_length "=" (Str.strip line)) as Hlen.
    rewrite strip_count in Hlen by done.
    destruct (str_split "=" (Str.strip line)) as [|k [|v [|w l]]];
      simpl in Hlen |- *.
    + lia.
    + lia.
    + split; [done|]. intros [_ H]. lia.
    + split; [|done]. intros _. split; [done | lia].
  - split; [done|]. intros [_ H].
    assert (0 < str_count "=" line) as H0 by lia.
    apply str_contains_count in H0. congruence.
Qed.

Lemma load_alias_line_error (aliases : gmap string string) (line : string) e :
  load_alias_line aliases line = Raise e → e = ValueError.
Proof.
  unfold load_alias_line. destruct (_ || _); [done|].
  destruct (str_split _ _) as [|k [|v [|w l]]]; congruence.
Qed.

Lemma load_alias_lines_raises (lines : list string) (aliases : gmap string string) :
  raises (load_alias_lines aliases lines)
  ↔ ∃ line, line ∈ lines
            ∧ str_startswith "#" line = false ∧ 2 ≤ str_count "=" line.
Proof.
  revert aliases. induction lines as [|line lines IH]; intros aliases; simpl.
  - split; [done|]. by intros (? & []%elem_of_nil & _).
  - destruct (load_alias_line aliases line) as [aliases'|e] eqn:Hline; simpl.
    + rewrite IH. split.
      * intros (l & Hl & H). exists l. split; [by right | done].
      * intros (l & [-> | Hl]%elem_of_cons & H); [|by exists l].
        apply (load_alias_line_raises aliases) in H. by rewrite Hline in H.
    + split; [|done]. intros _. exists line. split; [by left|].
      apply (load_alias_line_raises aliases). by rewrite Hline.
Qed.

Lemma load_alias_lines_error (lines : list string) (aliases : gmap string string) e :
  load_alias_lines aliases lines = Raise e → e = ValueError.
Proof.
  revert aliases. induction lines as [|line lines IH]; intros aliases; simpl;
    [done|].
  destruct (load_alias_line aliases line) as [aliases'|e'] eqn:Hline; simpl.
  - apply IH.
  - intros [= <-]. by apply load_alias_line_error in Hline.
Qed.

Lemma load_alias_lines_skip (lines : list string) (aliases : gmap string string) :
  (∀ line, line ∈ lines →
           str_startswith "#" line = true ∨ str_count "=" line = 0) →
  load_alias_lines aliases lines = Ok aliases.
Proof.
  induction lines as [|line lines IH]; intros Hskip; simpl; [done|].
  assert (load_alias_line aliases line = Ok aliases) as ->.
  { unfold load_alias_line.
    destruct (Hskip line) as [-> | H0]; [by left | done |].
    destruct (str_contains "=" line) eqn:Hc; [|by rewrite orb_true_r].
    apply str_contains_count in Hc. lia. }
  simpl. apply IH. intros l Hl. apply Hskip. by right.
Qed.

(** X15.  Which alias files fail to load.  [_load_unit_aliases] raises
    in two cases and no other: the file cannot be decoded, and the
    exception is [UnicodeDecodeError]; or it is read and some line does
    not begin with [#] and holds two or more [=], and the exception is
    [ValueError].  Either is a [ValueError], which the method's
    [except IOError] does not catch.  A file that cannot be read leaves
    the registry as it is, and so does a file whose lines all begin with
    [#] or hold no [=]. *)
Theorem load_unit_aliases_raises (um : UnitManager) (file : alias_file) :
  (raises (_load_unit_aliases um file)
   ↔ file = Undecodable
     ∨ ∃ lines line, file = Lines lines
                     ∧ line ∈ lines
                     ∧ str_startswith "#" line = false
                     ∧ 2 ≤ str_count "=" line)
  ∧ (∀ e, _load_unit_aliases um file = Raise e →
          e = (if file is Undecodable then UnicodeDecodeError else ValueError)
          ∧ is_ValueError e = true)
  ∧ (file = Unreadable
     ∨ (∃ lines, file = Lines lines
                 ∧ ∀ line, line ∈ lines →
                           str_startswith "#" line = true
                           ∨ str_count "=" line = 0) →
     _load_unit_aliases um file = Ok um).
Proof.
  split; [|split].
  - destruct file as [| |lines]; simpl.
    + split; [done|]. intros [?|(? & ? & ? & _)]; done.
    + split; [by left | done].
    + assert (raises (load_alias_lines (unit_aliases_ um) lines ≫= λ aliases,
                        Ok (mkUnitManager aliases (quantities_ um)))
              ↔ raises (load_alias_lines (unit_aliases_ um) lines)) as ->
        by (by destruct (load_alias_lines _ _)).
      rewrite load_alias_lines_raises. split.
      * intros (line & Hin & Hhash & Hcount). right. by exists lines, line.
      * intros [?|(lines' & line & [= <-] & Hin & Hhash & Hcount)]; [done|].
        by exists line.
  - intros e. destruct file as [| |lines]; simpl; [done | by intros [= <-]|].
    destruct (load_alias_lines _ _) as [a|e'] eqn:Hl; simpl; [done|].
    intros [= <-]. by apply load_alias_lines_error in Hl as ->.
  - intros [->|(lines & -> & Hskip)]; simpl; [done|].
    rewrite load_alias_lines_skip by done. simpl. by destruct um.
Qed.

Lemma load_unit_aliases_raises_witness :
  _load_unit_aliases empty_manager (Lines ["# aliases"; "mph=mi/h=x"])
  = Raise ValueError
  ∧ _load_unit_aliases empty_manager Undecodable = Raise UnicodeDecodeError
  ∧ _load_unit_aliases empty_manager (Lines ["# a=b=c"; "no alias here"])
    = Ok empty_manager.
Proof.
  destruct (load_unit_aliases_raises empty_manager
              (Lines ["# aliases"; "mph=mi/h=x"])) as (Hraise & Herr & _).
  destruct (load_unit_aliases_raises empty_manager Undecodable)
    as (Hraise' & Herr' & _).
  destruct (load_unit_aliases_raises empty_manager
              (Lines ["# a=b=c"; "no alias here"])) as (_ & _ & Hskip).
  split; [|split].
  - destruct (_load_unit_aliases empty_manager (Lines ["# aliases"; _]))
      as [um'|e] eqn:Hl.
    + exfalso. apply Hraise. right.
      exists ["# aliases"; "mph=mi/h=x"], "mph=mi/h=x".
      split; [done|]. split; [right; by left|].
      split; [done | vm_compute; lia].
    + f_equal. by destruct (Herr e) as [-> _].
  - destruct (_load_unit_aliases empty_manager Undecodable)
      as [um'|e] eqn:Hl.
    + exfalso. apply Hraise'. by left.
    + f_equal. by destruct (Herr' e) as [-> _].
  - apply Hskip. right. eexists. split; [done|]. intros line Hline.
    apply elem_of_cons in Hline as [-> | Hline]; [by left|].
    apply list_elem_of_singleton in Hline as ->. by right.
Defined.

Lemma append_nonempty (a : string) (c : ascii) (b : string) :
  ∃ c' r, (a +:+ String c b) = String c' r.
Proof. destruct a as [|c' a]; simpl; by eexists _, _. Qed.

Lemma lstrip_append (k : string) (c : ascii) (v : string) :
  Str.isspace c = false →
  Str.lstrip (k +:+ String c v) = Str.lstrip k +:+ String c v.
Proof.
  intros Hc. induction k as [|c' k IH]; simpl; [by rewrite Hc|].
  by destruct (Str.isspace c').
Qed.

Lemma rstrip_append (k : string) (c : ascii) (v : string) :
  Str.isspace c = false →
  Str.rstrip (k +:+ String c v) = k +:+ String c (Str.rstrip v).
Proof.
  intros Hc. induction k as [|c' k IH]; simpl.
  - destruct (Str.rstrip v); [by rewrite Hc | done].
  - rewrite IH.
    change (String c' k +:+ String c (Str.rstrip v))
      with (String c' (k +:+ String c (Str.rstrip v))).
    by destruct (append_nonempty k c (Str.rstrip v)) as (? & ? & ->).
Qed.

Lemma str_split_whole (c : ascii) (s : string) :
  str_contains c s = false → str_split c s = [s].
Proof.
  induction s as [|c' s IH]; simpl; [done|].
  destruct (Ascii.eqb c' c); simpl; [done|]. intros H. by rewrite IH.
Qed.

Lemma str_split_append (c : ascii) (k v : string) :
  str_contains c k = false →
  str_split c (k +:+ String c v) = k :: str_split c v.
Proof.
  induction k as [|c' k IH]; simpl.
  - by rewrite Ascii.eqb_refl.
  - destruct (Ascii.eqb c' c); simpl; [done|]. intros H. by rewrite IH.
Qed.

Lemma lstrip_contains (c : ascii) (s : string) :
  str_contains c s = false → str_contains c (Str.lstrip s) = false.
Proof.
  induction s as [|c' s IH]; simpl; [done|].
  destruct (Str.isspace c'); [|done].
  intros [_ H]%orb_false_iff. by apply IH.
Qed.

Lemma rstrip_contains (c : ascii) (s : string) :
  str_contains c s = false → str_contains c (Str.rstrip s) = false.
Proof.
  induction s as [|c' s IH]; simpl; [done|].
  intros [Hc H]%orb_false_iff. specialize (IH H).
  destruct (Str.rstrip s); [destruct (Str.isspace c')|]; simpl in *;
    rewrite ?Hc; done.
Qed.

(** What one line [key=value] of the alias file stores. *)
Lemma load_alias_line_stores (aliases : gmap string string) (k v : string) :
  str_startswith "#" k = false →
  str_contains "=" k = false →
  str_contains "=" v = false →
  load_alias_line aliases (k +:+ String "=" v)
  = Ok (<[Str.strip k := Str.strip v]> aliases).
Proof.
  intros Hhash Hk Hv. unfold load_alias_line.
  assert (str_startswith "#" (k +:+ String "=" v) = false) as ->
    by (by destruct k).
  assert (str_contains "=" (k +:+ String "=" v) = true) as ->.
  { apply str_contains_count. clear. induction k as [|c k IH]; simpl; lia. }
  simpl. unfold Str.strip at 1.
  rewrite lstrip_append, rstrip_append by done.
  rewrite str_split_append by (by apply lstrip_contains).
  rewrite str_split_whole by (by apply rstrip_contains).
  do 2 f_equal.
  - unfold Str.strip. by rewrite lstrip_idem.
  - unfold Str.strip. by rewrite lstrip_rstrip, rstrip_idem.
Qed.

Lemma load_alias_line_keys (aliases aliases' : gmap string string) (line : string) :
  load_alias_line aliases line = Ok aliases' →
  (∀ key, is_Some (aliases !! key) → is_Some (aliases' !! key))
  ∧ (∀ key, is_Some (aliases' !! key) →
            is_Some (aliases !! key) ∨ Str.is_trimmed key).
Proof.
  unfold load_alias_line. destruct (_ || _); [by intros [= <-]; split; [|left]|].
  destruct (str_split _ _) as [|k [|v [|w l]]]; try done.
  intros [= <-]. split; intros key.
  - destruct (decide (key = Str.strip k)) as [->|Hne].
    + by rewrite lookup_insert_eq.
    + by rewrite lookup_insert_ne.
  - destruct (decide (key = Str.strip k)) as [->|Hne].
    + intros _. right. apply strip_is_trimmed.
    + rewrite lookup_insert_ne by done. by left.
Qed.

(** X16.  What a well-formed alias file stores.  A line [key=value]
    (neither holding [=], the key not beginning with [#]) stores the
    trimmed value under the trimmed key, which is not lower-cased.  A
    file that loads removes no alias, every key it adds is trimmed, and
    the quantities are as before. *)
Theorem load_unit_aliases_stores (um um' : UnitManager) (lines : list string) :
  (∀ k v, str_startswith "#" k = false →
          str_contains "=" k = false →
          str_contains "=" v = false →
          _load_unit_aliases um (Lines [k +:+ String "=" v])
          = Ok (mkUnitManager (<[Str.strip k := Str.strip v]> (unit_aliases_ um))
                              (quantities_ um)))
  ∧ (_load_unit_aliases um (Lines lines) = Ok um' →
     quantities_ um' = quantities_ um
     ∧ (∀ key, is_Some (unit_aliases_ um !! key) →
               is_Some (unit_aliases_ um' !! key))
     ∧ (∀ key, is_Some (unit_aliases_ um' !! key) →
               is_Some (unit_aliases_ um !! key) ∨ Str.is_trimmed key)).
Proof.
  split.
  - intros k v Hhash Hk Hv. unfold _load_unit_aliases. simpl.
    by rewrite load_alias_line_stores.
  - unfold _load_unit_aliases.
    destruct (load_alias_lines _ _) as [aliases'|] eqn:Hl; [|done].
    simpl. intros [= <-]. simpl. split; [done|].
    revert Hl. generalize (unit_aliases_ um) as aliases.
    induction lines as [|line lines IH]; intros aliases; simpl.
    + intros [= <-]. split; [done | by left].
    + destruct (load_alias_line aliases line) as [a1|] eqn:Hline; [|done].
      simpl. intros Hrest.
      destruct (load_alias_line_keys _ _ _ Hline) as [Hkeep1 Hnew1].
      destruct (IH _ Hrest) as [Hkeep Hnew]. split.
      * intros key Hkey. by apply Hkeep, Hkeep1.
      * intros key Hkey. destruct (Hnew key Hkey) as [H1|]; [|by right].
        by apply Hnew1.
Qed.

Lemma load_unit_aliases_stores_witness :
  _load_unit_aliases empty_manager (Lines [" MPH =mi/h" +:+ String "010" ""])
  = Ok (mkUnitManager (<["MPH" := "mi/h"]> ∅) []).
Proof.
  destruct (load_unit_aliases_stores empty_manager empty_manager [])
    as [Hline _].
  apply (Hline " MPH " ("mi/h" +:+ String "010" "")); done.
Defined.

End alias_file.

(** ** Quantities of a unit and convertibility: further properties *)

Section convertibility.

#[local] Existing Instance unit_eq_equivalence.

Lemma filter_has_unit (u : Unit) (qs : list Quantity) (q : Quantity) :
  q ∈ List.filter (has_unit u) qs ↔ q ∈ qs ∧ has_unit u q = true.
Proof. by rewrite !list_elem_of_In, filter_In. Qed.

Lemma existsb_has_unit (e u : Unit) (qs : list Quantity) :
  existsb (has_unit e) (List.filter (has_unit u) qs) = true
  ↔ ∃ q, q ∈ qs ∧ has_unit u q = true ∧ has_unit e q = true.
Proof.
  rewrite existsb_exists. split.
  - intros (q & [Hq Hu]%list_elem_of_In%filter_has_unit & He). by exists q.
  - intros (q & Hq & Hu & He). exists q. split; [|done].
    apply list_elem_of_In, filter_has_unit. done.
Qed.

(** A quantity that contains the unit is an entry of the list. *)
Lemma find_quantities_by_unit_entry (um : UnitManager) (u e : Unit) (q : Quantity) :
  find_unit um (Some "Euc") = Some e →
  q ∈ quantities_ um → has_unit u q = true →
  ∃ l, find_quantities_by_unit um (Some u) = Ok l ∧ Some q ∈ l.
Proof.
  intros He Hq Hu. eexists. split; [by apply find_quantities_by_unit_resolved|].
  apply elem_of_app. left. apply list_elem_of_fmap_2.
  by apply filter_has_unit.
Qed.

Lemma can_convert_shared (um : UnitManager) (u v : Unit) l1 l2 x :
  find_quantities_by_unit um (Some u) = Ok l1 →
  find_quantities_by_unit um (Some v) = Ok l2 →
  x ∈ l1 → x ∈ l2 →
  can_convert um (Some u) (Some v) = Ok true.
Proof.
  intros H1 H2 Hx1 Hx2. unfold can_convert. rewrite H1, H2. simpl. f_equal.
  apply any_entry_in_true. exists x, x. by rewrite entry_is_refl.
Qed.

Lemma convertible_units_InA (um : UnitManager) (u v : Unit) :
  (∃ l, find_convertible_units um (Some u) = Ok l ∧ InA unit_eq v l)
  ↔ (∃ q, q ∈ quantities_ um
          ∧ InA unit_eq u (units_ q) ∧ InA unit_eq v (units_ q))
    ∧ ¬ unit_eq v u.
Proof.
  unfold find_convertible_units. split.
  - intros (l & [= <-] & Hv).
    rewrite set_discard_InA, collect_InA, InA_nil in Hv. tauto.
  - intros H. eexists. split; [done|].
    rewrite set_discard_InA, collect_InA, InA_nil. tauto.
Qed.

(** X17.  In a registry where [Euc] resolves, every unit that
    [find_convertible_units(u)] returns passes [can_convert] with [u]. *)
Theorem convertible_units_can_convert (um : UnitManager) (u v e : Unit) l :
  find_unit um (Some "Euc") = Some e →
  find_convertible_units um (Some u) = Ok l →
  InA unit_eq v l →
  can_convert um (Some u) (Some v) = Ok true.
Proof.
  intros He Hl Hv.
  assert (∃ l, find_convertible_units um (Some u) = Ok l ∧ InA unit_eq v l)
    as Hex by (by exists l).
  apply convertible_units_InA in Hex as [(q & Hq & Hu & Hv') _].
  apply has_unit_InA in Hu, Hv'.
  destruct (find_quantities_by_unit_entry um u e q He Hq Hu) as (l1 & H1 & Hin1).
  destruct (find_quantities_by_unit_entry um v e q He Hq Hv') as (l2 & H2 & Hin2).
  by apply (can_convert_shared um u v l1 l2 (Some q)).
Qed.

Lemma convertible_units_can_convert_witness :
  can_convert reference (Some mile_per_hour) (Some kilometre_per_hour) = Ok true.
Proof.
  apply (convertible_units_can_convert reference mile_per_hour
           kilometre_per_hour euclid [metre_per_second; kilometre_per_hour]).
  - by vm_compute.
  - by vm_compute.
  - apply existsb_InA. by vm_compute.
Defined.

(** X18.  The [Euc] rule links quantities.  In a registry where [Euc]
    resolves, two units that each share some quantity with the unit of
    [Euc] pass [can_convert], whether or not a quantity contains both and
    whether or not a quantity is named [dimensionless]. *)
Theorem euclid_links_quantities (um : UnitManager) (e u1 u2 : Unit)
    (q1 q2 : Quantity) :
  find_unit um (Some "Euc") = Some e →
  q1 ∈ quantities_ um → has_unit u1 q1 = true → has_unit e q1 = true →
  q2 ∈ quantities_ um → has_unit u2 q2 = true → has_unit e q2 = true →
  can_convert um (Some u1) (Some u2) = Ok true.
Proof.
  intros He Hq1 Hu1 He1 Hq2 Hu2 He2.
  pose proof (find_quantities_by_unit_resolved um u1 e He) as H1.
  pose proof (find_quantities_by_unit_resolved um u2 e He) as H2.
  assert (existsb (has_unit e) (List.filter (has_unit u1) (quantities_ um))
          = true) as E1 by (apply existsb_has_unit; by exists q1).
  assert (existsb (has_unit e) (List.filter (has_unit u2) (quantities_ um))
          = true) as E2 by (apply existsb_has_unit; by exists q2).
  rewrite E1 in H1. rewrite E2 in H2.
  apply (can_convert_shared um u1 u2 _ _
           (first_quantity "dimensionless" (quantities_ um)) H1 H2);
    apply elem_of_app; right; by left.
Qed.

Lemma euclid_links_quantities_witness :
  can_convert no_dimensionless (Some percent) (Some hertz_period) = Ok true
  ∧ find_convertible_units no_dimensionless (Some percent) = Ok [euclid].
Proof.
  split; [|by vm_compute].
  apply (euclid_links_quantities no_dimensionless euclid percent hertz_period
           ratio_q period_q); try (by vm_compute).
  - by left.
  - right. by left.
Defined.

(** X19.  A unit of the quantity named [dimensionless], when that
    quantity contains the unit of [Euc], gets [dimensionless] twice: once
    as a quantity that contains the unit, once more at the end. *)
Theorem dimensionless_listed_twice (um : UnitManager) (e u : Unit) (d : Quantity) :
  find_unit um (Some "Euc") = Some e →
  find_quantity um (Some "dimensionless") = Ok (Some d) →
  has_unit u d = true → has_unit e d = true →
  ∃ l, find_quantities_by_unit um (Some u) = Ok (l ++ [Some d])
       ∧ Some d ∈ l
       ∧ 2 ≤ length (l ++ [Some d]).
Proof.
  intros He [= Hd] Hu Hed.
  apply first_quantity_member in Hd as Hd'. destruct Hd' as [Hin _].
  rewrite (find_quantities_by_unit_resolved um u e He).
  assert (existsb (has_unit e) (List.filter (has_unit u) (quantities_ um))
          = true) as -> by (apply existsb_has_unit; by exists d).
  rewrite Hd. eexists. split; [done|].
  assert (Some d ∈ map Some (List.filter (has_unit u) (quantities_ um))) as Hl.
  { apply list_elem_of_fmap_2. by apply filter_has_unit. }
  split; [done|]. rewrite length_app. simpl.
  destruct (map Some _); [by apply elem_of_nil in Hl | simpl; lia].
Qed.

Lemma dimensionless_listed_twice_witness :
  find_quantities_by_unit reference (Some percent)
  = Ok [Some dimensionless_q; Some dimensionless_q].
Proof.
  assert (find_unit reference (Some "Euc") = Some euclid) as He
    by (by vm_compute).
  assert (find_quantity reference (Some "dimensionless")
          = Ok (Some dimensionless_q)) as Hd by (by vm_compute).
  assert (has_unit percent dimensionless_q = true) as Hu by (by vm_compute).
  assert (has_unit euclid dimensionless_q = true) as Hed by (by vm_compute).
  destruct (dimensionless_listed_twice reference euclid percent dimensionless_q
              He Hd Hu Hed) as (l & Hl & Hin & _).
  rewrite Hl. f_equal.
  assert (find_quantities_by_unit reference (Some percent)
          = Ok ([Some dimensionless_q] ++ [Some dimensionless_q])) as Hl'
    by (by vm_compute).
  rewrite Hl in Hl'. by injection Hl'.
Defined.

Lemma find_quantities_by_unit_outside (um : UnitManager) (u : Unit) :
  (∀ q, q ∈ quantities_ um → has_unit u q = false) →
  find_quantities_by_unit um (Some u) = Ok [].
Proof.
  intros Hout.
  assert (List.filter (has_unit u) (quantities_ um) = []) as Hf.
  { destruct (List.filter _ _) as [|q l] eqn:Hf; [done|].
    assert (q ∈ List.filter (has_unit u) (quantities_ um)) as Hq
      by (rewrite Hf; by left).
    apply filter_has_unit in Hq as [Hq Hu]. rewrite Hout in Hu; done. }
  destruct (find_unit um (Some "Euc")) as [e|] eqn:He.
  - rewrite (find_quantities_by_unit_resolved um u e He), Hf. done.
  - rewrite (find_quantities_by_unit_unresolved um u He), Hf. done.
Qed.

Lemma entry_names_some (qs : list Quantity) :
  entry_names (map Some qs) = Ok (map qname_ qs).
Proof. induction qs as [|q qs IH]; simpl; [done|]. by rewrite IH. Qed.

Lemma entry_names_none (qs : list Quantity) l :
  entry_names (map Some qs ++ None :: l) = Raise AttributeError.
Proof. induction qs as [|q qs IH]; simpl; [done|]. by rewrite IH. Qed.

Lemma time_in_names (qs : list Quantity) (t : Quantity) :
  t ∈ qs → qname_ t = "time" →
  existsb (String.eqb "time") (map qname_ qs) = true.
Proof.
  intros Ht Hn. apply existsb_exists. exists "time". split; [|done].
  rewrite <- Hn. apply in_map. by apply list_elem_of_In.
Qed.

(** X20.  [find_quantity_by_unit] raises [ValueError] on [None] and
    returns [None] for a unit that no quantity contains.  In a registry
    with unique names where [Euc] resolves and a quantity is named
    [dimensionless], a unit of the quantity named [time] is given
    [time], whatever other quantities contain it. *)
Theorem find_quantity_by_unit_prefers_time (um : UnitManager) (u : Unit) :
  find_quantity_by_unit um None = Raise ValueError
  ∧ ((∀ q, q ∈ quantities_ um → has_unit u q = false) →
     find_quantity_by_unit um (Some u) = Ok None)
  ∧ (∀ e t,
       find_unit um (Some "Euc") = Some e →
       is_Some (first_quantity "dimensionless" (quantities_ um)) →
       unique_names um →
       t ∈ quantities_ um → qname_ t = "time" → has_unit u t = true →
       find_quantity_by_unit um (Some u) = Ok (Some t)).
Proof.
  split; [done|]. split.
  - intros Hout. unfold find_quantity_by_unit.
    by rewrite find_quantities_by_unit_outside.
  - intros e t He [d Hd] Huniq Ht Hname Hu. unfold find_quantity_by_unit.
    rewrite (find_quantities_by_unit_resolved um u e He), Hd.
    set (F := List.filter (has_unit u) (quantities_ um)).
    assert (map Some F ++ (if existsb (has_unit e) F then [Some d] else [])
            = map Some (F ++ if existsb (has_unit e) F then [d] else []))
      as -> by (rewrite map_app; by destruct (existsb _ _)).
    assert (t ∈ F ++ if existsb (has_unit e) F then [d] else []) as Hin.
    { apply elem_of_app. left. by apply filter_has_unit. }
    destruct (F ++ _) as [|x [|y l]] eqn:HL.
    + by apply elem_of_nil in Hin.
    + apply list_elem_of_singleton in Hin as ->. done.
    + cbn [map mbind result_bind].
      change (Some x :: Some y :: map Some l) with (map Some (x :: y :: l)).
      rewrite entry_names_some. cbn [mbind result_bind].
      rewrite (time_in_names _ t Hin Hname).
      unfold find_quantity. f_equal. rewrite <- Hname.
      by apply first_quantity_unique.
Qed.

Lemma find_quantity_by_unit_prefers_time_witness :
  find_quantity_by_unit with_time (Some hertz_period) = Ok (Some time_q)
  ∧ find_quantity_by_unit with_time (Some metre) = Ok None.
Proof.
  destruct (find_quantity_by_unit_prefers_time with_time hertz_period)
    as (_ & _ & Htime).
  destruct (find_quantity_by_unit_prefers_time with_time metre)
    as (_ & Hout & _).
  split.
  - apply (Htime euclid time_q); try (by vm_compute).
    + vm_compute. by eexists.
    + by apply (bool_decide_unpack _).
    + right. by left.
  - apply Hout. intros q Hq. revert q Hq. apply Forall_forall.
    by apply (bool_decide_unpack _).
Defined.

(** X21.  In a registry where [Euc] resolves and no quantity is named
    [dimensionless], [find_quantity_by_unit] raises [AttributeError] for
    every unit that shares a quantity with the unit of [Euc]: the list
    of its quantities ends in [None], whose [name] is read. *)
Theorem find_quantity_by_unit_without_dimensionless (um : UnitManager)
    (e u : Unit) (q : Quantity) :
  find_unit um (Some "Euc") = Some e →
  first_quantity "dimensionless" (quantities_ um) = None →
  q ∈ quantities_ um → has_unit u q = true → has_unit e q = true →
  (∃ l, find_quantities_by_unit um (Some u) = Ok (l ++ [None]) ∧ l ≠ [])
  ∧ find_quantity_by_unit um (Some u) = Raise AttributeError.
Proof.
  intros He Hd Hq Hu Heq.
  pose proof (find_quantities_by_unit_resolved um u e He) as Hl.
  assert (existsb (has_unit e) (List.filter (has_unit u) (quantities_ um))
          = true) as E by (apply existsb_has_unit; by exists q).
  rewrite E, Hd in Hl.
  assert (q ∈ List.filter (has_unit u) (quantities_ um)) as Hin
    by (by apply filter_has_unit).
  split.
  - eexists. split; [done|].
    destruct (List.filter _ _); [by apply elem_of_nil in Hin | done].
  - unfold find_quantity_by_unit. rewrite Hl.
    destruct (List.filter (has_unit u) (quantities_ um)) as [|x F] eqn:HF;
      [by apply elem_of_nil in Hin|].
    cbn [map app mbind result_bind].
    destruct (map Some F ++ [None]) as [|y l] eqn:Hrest.
    + by destruct F.
    + rewrite <- Hrest.
      change (Some x :: map Some F ++ [None])
        with (map Some (x :: F) ++ [None]).
      by rewrite entry_names_none.
Qed.

Lemma find_quantity_by_unit_without_dimensionless_witness :
  find_quantity_by_unit no_dimensionless (Some percent) = Raise AttributeError.
Proof.
  apply (find_quantity_by_unit_without_dimensionless no_dimensionless
           euclid percent ratio_q); try (by vm_compute).
  by left.
Defined.

(** X22.  In a registry where [Euc] does not resolve, every operation
    that goes through [find_quantities_by_unit] raises [AttributeError]
    for a unit that some quantity contains: [find_quantities_by_unit] and
    [find_quantity_by_unit] themselves, [can_convert] with that unit on
    either side, and the wrappers by symbol for a symbol that resolves
    to it. *)
Theorem without_euclid_everything_raises (um : UnitManager) (u : Unit)
    (q : Quantity) :
  find_unit um (Some "Euc") = None →
  q ∈ quantities_ um → has_unit u q = true →
  find_quantities_by_unit um (Some u) = Raise AttributeError
  ∧ find_quantity_by_unit um (Some u) = Raise AttributeError
  ∧ (∀ v, can_convert um (Some u) (Some v) = Raise AttributeError
          ∧ can_convert um (Some v) (Some u) = Raise AttributeError)
  ∧ (∀ s, find_unit um s = Some u →
          find_quantities_by_symbol um s = Raise AttributeError)
  ∧ (∀ s s' v, find_unit um (Some s) = Some u →
               find_unit um (Some s') = Some v →
               can_convert_by_symbol um (Some s) (Some s')
               = Raise AttributeError).
Proof.
  intros He Hq Hu.
  assert (find_quantities_by_unit um (Some u) = Raise AttributeError) as Hraise.
  { rewrite (find_quantities_by_unit_unresolved um u He).
    assert (q ∈ List.filter (has_unit u) (quantities_ um)) as Hin
      by (by apply filter_has_unit).
    destruct (List.filter _ _); [by apply elem_of_nil in Hin | done]. }
  split; [done|]. split; [|split; [|split]].
  - unfold find_quantity_by_unit. by rewrite Hraise.
  - intros v. unfold can_convert. rewrite Hraise. split; [done|].
    destruct (find_quantities_by_unit um (Some v)) as [l|e] eqn:Hv; [done|].
    apply find_quantities_by_unit_raise in Hv as ->. done.
  - intros s Hs. unfold find_quantities_by_symbol. by rewrite Hs.
  - intros s s' v Hs Hv. unfold can_convert_by_symbol. rewrite Hs, Hv.
    unfold can_convert. by rewrite Hraise.
Qed.

Lemma without_euclid_everything_raises_witness :
  can_convert lengths_only (Some foot) (Some metre) = Raise AttributeError
  ∧ find_quantities_by_symbol lengths_only (Some "FT") = Raise AttributeError.
Proof.
  assert (find_unit lengths_only (Some "Euc") = None) as He by (by vm_compute).
  assert (length_q ∈ quantities_ lengths_only) as Hq by (by left).
  assert (has_unit foot length_q = true) as Hu by (by vm_compute).
  destruct (without_euclid_everything_raises lengths_only foot length_q
              He Hq Hu) as (_ & _ & Hcan & Hsym & _).
  split; [apply Hcan | apply Hsym; by vm_compute].
Defined.

(** X23.  [find_convertible_units] is symmetric: [v] is among the units
    convertible with [u] exactly when [u] is among those convertible with
    [v]; and a unit that no quantity contains has no convertible unit. *)
Theorem convertible_units_symmetric (um : UnitManager) (u v : Unit) :
  ((∃ l, find_convertible_units um (Some u) = Ok l ∧ InA unit_eq v l)
   ↔ (∃ l, find_convertible_units um (Some v) = Ok l ∧ InA unit_eq u l))
  ∧ ((∀ q, q ∈ quantities_ um → has_unit u q = false) →
     find_convertible_units um (Some u) = Ok []).
Proof.
  split.
  - rewrite !convertible_units_InA.
    split; intros [(q & Hq & H1 & H2) Hne]; (split; [by exists q|]);
      intros Heq; by apply Hne.
  - intros Hout. unfold find_convertible_units. f_equal.
    destruct (set_discard _ _) as [|x l] eqn:Hl; [done|].
    assert (InA unit_eq x (set_discard (collect u (quantities_ um) []) u))
      as Hx by (rewrite Hl; by left).
    rewrite set_discard_InA, collect_InA, InA_nil in Hx.
    destruct Hx as [[[]|(q & Hq & Hu%has_unit_InA & _)] _].
    rewrite Hout in Hu; done.
Qed.

Lemma convertible_units_symmetric_witness :
  (∃ l, find_convertible_units reference (Some kilometre_per_hour) = Ok l
        ∧ InA unit_eq mile_per_hour l)
  ∧ find_convertible_units reference (Some reciprocal) = Ok [].
Proof.
  destruct (convertible_units_symmetric reference mile_per_hour
              kilometre_per_hour) as [Hsym _].
  destruct (convertible_units_symmetric reference reciprocal reciprocal)
    as [_ Hout].
  split.
  - apply Hsym. eexists. split; [reflexivity|].
    apply existsb_InA. by vm_compute.
  - apply Hout. intros q Hq. revert q Hq. apply Forall_forall.
    by apply (bool_decide_unpack _).
Defined.

(** X24.  A unit that no quantity contains passes [can_convert] with no
    unit whose quantities are returned; in a registry where [Euc]
    resolves, a unit that some quantity contains passes it with itself. *)
Theorem can_convert_members_only (um : UnitManager) (u : Unit) :
  ((∀ q, q ∈ quantities_ um → has_unit u q = false) →
   ∀ v l, find_quantities_by_unit um (Some v) = Ok l →
          can_convert um (Some u) (Some v) = Ok false
          ∧ can_convert um (Some v) (Some u) = Ok false)
  ∧ (∀ e q, find_unit um (Some "Euc") = Some e →
            q ∈ quantities_ um → has_unit u q = true →
            can_convert um (Some u) (Some u) = Ok true).
Proof.
  split.
  - intros Hout v l Hv. unfold can_convert.
    rewrite (find_quantities_by_unit_outside um u Hout), Hv. simpl.
    split; [done|]. f_equal. clear Hv.
    induction l as [|x l IH]; [done|]. simpl. apply IH.
  - intros e q He Hq Hu.
    destruct (find_quantities_by_unit_entry um u e q He Hq Hu) as (l & Hl & Hin).
    by apply (can_convert_shared um u u l l (Some q)).
Qed.

Lemma can_convert_members_only_witness :
  can_convert reference (Some reciprocal) (Some metre) = Ok false
  ∧ can_convert reference (Some metre) (Some metre) = Ok true.
Proof.
  destruct (can_convert_members_only reference reciprocal) as [Hout _].
  destruct (can_convert_members_only reference metre) as [_ Hself].
  split.
  - apply (Hout) with (l := [Some length_q]); [|by vm_compute].
    intros q Hq. revert q Hq. apply Forall_forall.
    by apply (bool_decide_unpack _).
  - apply (Hself euclid length_q); [by vm_compute | by left | by vm_compute].
Defined.

End convertibility.
